(** * SGP Data Challenge: race-progress core

    A shallow embedding of the geodesy primitives ([src/utils/gps.py]),
    the mark-progression tracker and VMC annotation
    ([src/navigation/course.py], [src/navigation/bearing.py]), the leader
    selection ([src/race_analysis/leader.py]) and the distance-to-leader
    calculation ([src/race_analysis/dtl.py]).

    Numbers.  Python floats are idealised as real numbers: [np.sin],
    [np.cos], [np.sqrt] and [np.arctan2] are the real functions, and
    comparisons are the order of [R].  NaN, infinities, signed zeros and
    rounding are outside the model.  Integer columns (leg numbers,
    timestamps in nanoseconds) are [Z].

    Exceptions.  A Python exception is a [Raise] result; the only one the
    modelled code can throw is [IndexError] (list indexing). *)

From Stdlib Require Import Reals Lra ZArith Lia List Sorted String Bool.
Import ListNotations.

Local Open Scope R_scope.

(** ** Results of fallible code *)

Inductive exn : Set := IndexError.

Inductive result (A : Type) : Type :=
| Ok (a : A)
| Raise (e : exn).

Arguments Ok {A} a.
Arguments Raise {A} e.

Definition bind {A B : Type} (m : result A) (k : A -> result B) : result B :=
  match m with
  | Ok a => k a
  | Raise e => Raise e
  end.

Notation "x <- m ;; k" := (bind m (fun x => k))
  (at level 61, m at next level, right associativity).

(** Python list indexing [l[i]]: a negative index counts from the end,
    anything outside [-len, len) raises [IndexError]. *)
Definition py_index {A : Type} (l : list A) (i : Z) : result A :=
  let n := Z.of_nat (List.length l) in
  let j := if (i <? 0)%Z then (n + i)%Z else i in
  if ((0 <=? j)%Z && (j <? n)%Z)%bool
  then match nth_error l (Z.to_nat j) with
       | Some a => Ok a
       | None => Raise IndexError
       end
  else Raise IndexError.

(** ** numpy on reals *)

Module Np.

Definition leb (x y : R) : bool := if Rle_dec x y then true else false.
Definition ltb (x y : R) : bool := if Rlt_dec x y then true else false.
Definition gtb (x y : R) : bool := ltb y x.
Definition eqb (x y : R) : bool := if Req_dec_T x y then true else false.

(** [np.radians] *)
Definition radians (deg : R) : R := deg * (PI / 180).

(** [np.arctan2 y x], the angle of the point [(x, y)] in (-pi, pi]. *)
Definition arctan2 (y x : R) : R :=
  if Rlt_dec 0 x then atan (y / x)
  else if Rlt_dec x 0 then
    if Rle_dec 0 y then atan (y / x) + PI else atan (y / x) - PI
  else if Rlt_dec 0 y then PI / 2
  else if Rlt_dec y 0 then - (PI / 2)
  else 0.

(** [np.sign] *)
Definition sign (x : R) : R :=
  if Rlt_dec x 0 then -1 else if Rlt_dec 0 x then 1 else 0.

(** [np.cross] on two 2-vectors: the z component of the cross product. *)
Definition cross (u v : R * R) : R := fst u * snd v - snd u * fst v.

End Np.

(** ** src/utils/gps.py *)

Definition point : Type := (R * R)%type.

Module Gps.

(** Earth's radius in meters, the local [R] of [haversine_distance]. *)
Definition EARTH_R : R := 6371000.

(** The local [a] of [haversine_distance]. *)
Definition haversine_a (point1 point2 : point) : R :=
  let lat1 := Np.radians (fst point1) in
  let lon1 := Np.radians (snd point1) in
  let lat2 := Np.radians (fst point2) in
  let lon2 := Np.radians (snd point2) in
  let dlat := lat2 - lat1 in
  let dlon := lon2 - lon1 in
  sin (dlat / 2) ^ 2 + cos lat1 * cos lat2 * sin (dlon / 2) ^ 2.

Definition haversine_distance (point1 point2 : point) : R :=
  let a := haversine_a point1 point2 in
  let c := 2 * Np.arctan2 (sqrt a) (sqrt (1 - a)) in
  EARTH_R * c.

(** One iteration of the loop of [filter_gps_jumps]: [filtered] is the
    list [filtered_points] (never empty), [p] is [points[i]]. *)
Definition filter_step (max_jump_meters : R) (filtered : list point) (p : point)
  : list point :=
  let distance := haversine_distance (last filtered (0, 0)) p in
  if Np.leb distance max_jump_meters then filtered ++ [p] else filtered.

Definition filter_gps_jumps (points : list point) (max_jump_meters : R)
  : list point :=
  match points with
  | [] => points
  | [_] => points
  | p0 :: rest => fold_left (filter_step max_jump_meters) rest [p0]
  end.

End Gps.

(** ** src/models/dataclasses.py *)

Record Mark : Type := mkMark {
  mark_name : string;
  mark_lat : R;
  mark_lon : R;
  mark_seq_id : Z;
  mark_twd : option R;
  mark_tws : option R
}.

Record CompoundMark : Type := mkCompoundMark {
  cm_id : Z;
  cm_name : string;
  marks : list Mark;
  cm_rounding : string;
  cm_seq_id : Z;
  cm_zone_size : R
}.

Definition mark_pos (m : Mark) : point := (mark_lat m, mark_lon m).

(** ** src/navigation/bearing.py *)

Module Bearing.

(** The local [angle_diff] of [calculate_vmc] after its [if]. *)
Definition vmc_angle (boat_heading course_bearing : R) : R :=
  let angle_diff := Rabs (boat_heading - course_bearing) in
  if Np.gtb angle_diff 180 then 360 - angle_diff else angle_diff.

Definition calculate_vmc (boat_speed boat_heading course_bearing : R) : R :=
  let angle_diff := vmc_angle boat_heading course_bearing in
  boat_speed * cos (Np.radians angle_diff).

End Bearing.

(** ** src/models/dataframes.py

    A data frame is the list of its rows; only the columns the modelled
    functions read or write are kept. *)

(** The columns of [BoatDataSchema] read by [add_own_mark_tracking]. *)
Module BoatRow.
Record t : Type := mk {
  DATETIME : Z;
  LATITUDE_GPS_unk : R;
  LONGITUDE_GPS_unk : R
}.
End BoatRow.

(** The columns [add_own_mark_tracking] adds. *)
Module TrackRow.
Record t : Type := mk {
  NEXT_MARK : string;
  MARK_DISTANCE : R;
  CURRENT_LEG_NUM : Z
}.
End TrackRow.

(** [GPSPositionDataSchema] *)
Module GpsRow.
Record t : Type := mk {
  DATETIME : Z;
  LATITUDE_GPS : R;
  LONGITUDE_GPS : R;
  CURRENT_LEG_NUM : Z;
  SPEED : R;
  HEADING : R
}.
End GpsRow.

(** [LeaderDataSchema] *)
Module LeaderRow.
Record t : Type := mk {
  DATETIME : Z;
  LEADER_ID : string;
  LEADER_LAT : R;
  LEADER_LON : R;
  LEADER_LEG : Z
}.
End LeaderRow.

(** [DTLDataSchema] *)
Module DtlRow.
Record t : Type := mk {
  DATETIME : Z;
  DTL_DIRECT : R;
  DTL_INDIRECT : R;
  LEG_BEHIND : Z
}.
End DtlRow.

(** A loop that appends one result per row and stops at the first
    exception. *)
Fixpoint mapM {A B : Type} (f : A -> result B) (l : list A) : result (list B) :=
  match l with
  | [] => Ok []
  | x :: rest =>
      y <- f x ;;
      ys <- mapM f rest ;;
      Ok (y :: ys)
  end.

(** ** src/navigation/course.py *)

Module Course.

Definition ROUNDING_ZONE : R := 100.
Definition MAX_POSITION_JUMP : R := 300.

(** The line-crossing test that ends the gate branch of
    [is_mark_rounded]; [m0] and [m1] are [mark.marks[0]] and
    [mark.marks[1]]. *)
Definition gate_line_crossed (current_pos prev_pos : point) (m0 m1 : Mark) : bool :=
  let gate_vector := (mark_lat m1 - mark_lat m0, mark_lon m1 - mark_lon m0) in
  let boat_vector :=
    (fst current_pos - fst prev_pos, snd current_pos - snd prev_pos) in
  if Np.gtb (Rabs (Np.cross gate_vector boat_vector)) 1e-10 then
    let prev_vector :=
      (fst prev_pos - mark_lat m0, snd prev_pos - mark_lon m0) in
    let current_vector :=
      (fst current_pos - mark_lat m0, snd current_pos - mark_lon m0) in
    let prev_side := Np.cross gate_vector prev_vector in
    let current_side := Np.cross gate_vector current_vector in
    negb (Np.eqb (Np.sign prev_side) (Np.sign current_side))
  else false.

(** The [jump_distance > MAX_POSITION_JUMP] guard of [is_mark_rounded]. *)
Definition position_jumped (current_pos : point) (prev_pos : option point) : bool :=
  match prev_pos with
  | Some prev => Np.gtb (Gps.haversine_distance current_pos prev) MAX_POSITION_JUMP
  | None => false
  end.

Definition in_rounding_zone (current_pos : point) (m : Mark) : bool :=
  Np.leb (Gps.haversine_distance current_pos (mark_pos m)) ROUNDING_ZONE.

Definition is_mark_rounded (current_pos : point) (mark : CompoundMark)
    (prev_pos : option point) : result bool :=
  if position_jumped current_pos prev_pos then Ok false
  else if (List.length (marks mark) =? 1)%nat then
    m0 <- py_index (marks mark) 0 ;;
    Ok (in_rounding_zone current_pos m0)
  else
    match prev_pos with
    | None => Ok false
    | Some prev =>
        if existsb (in_rounding_zone current_pos) (marks mark) then Ok true
        else
          m1 <- py_index (marks mark) 1 ;;
          m0 <- py_index (marks mark) 0 ;;
          Ok (gate_line_crossed current_pos prev m0 m1)
    end.

(** The loop-carried locals of [add_own_mark_tracking]. *)
Record ProgressState : Type := mkState {
  current_mark_idx : Z;
  prev_pos : option point
}.

Definition len_course (course : list CompoundMark) : Z :=
  Z.of_nat (List.length course).

(** The [if prev_pos and current_mark_idx < len(course) - 1] block: the
    mark index after the rounding check.  A tuple of two floats is
    truthy, so [prev_pos] is false only when it is [None]. *)
Definition advance (course : list CompoundMark) (st : ProgressState)
    (current_pos : point) : result Z :=
  match prev_pos st with
  | Some prev =>
      if (current_mark_idx st <? len_course course - 1)%Z then
        cm <- py_index course (current_mark_idx st) ;;
        rounded <- is_mark_rounded current_pos cm (Some prev) ;;
        Ok (if rounded then (current_mark_idx st + 1)%Z else current_mark_idx st)
      else Ok (current_mark_idx st)
  | None => Ok (current_mark_idx st)
  end.

(** The dictionary appended to [results] for one row. *)
Definition next_mark_info (course : list CompoundMark) (idx : Z)
    (current_pos : point) : result TrackRow.t :=
  if (len_course course <=? idx)%Z then
    Ok (TrackRow.mk "FINISHED" 0 idx)
  else
    cm <- py_index course idx ;;
    next_mark <- py_index (marks cm) 0 ;;
    Ok (TrackRow.mk (mark_name next_mark)
          (Gps.haversine_distance current_pos (mark_pos next_mark)) idx).

(** One iteration of the loop of [add_own_mark_tracking]. *)
Definition track_step (course : list CompoundMark) (st : ProgressState)
    (row : BoatRow.t) : result (TrackRow.t * ProgressState) :=
  let current_pos := (BoatRow.LATITUDE_GPS_unk row, BoatRow.LONGITUDE_GPS_unk row) in
  idx <- advance course st current_pos ;;
  out <- next_mark_info course idx current_pos ;;
  Ok (out, mkState idx (Some current_pos)).

Fixpoint track_loop (course : list CompoundMark) (st : ProgressState)
    (rows : list BoatRow.t) : result (list TrackRow.t) :=
  match rows with
  | [] => Ok []
  | row :: rest =>
      r <- track_step course st row ;;
      outs <- track_loop course (snd r) rest ;;
      Ok (fst r :: outs)
  end.

(** [add_own_mark_tracking]; the value is [result_df], the three columns
    concatenated to [boat_data], row for row. *)
Definition add_own_mark_tracking (boat_data : list BoatRow.t)
    (course : list CompoundMark) : result (list TrackRow.t) :=
  track_loop course (mkState 0 None) boat_data.

Section Vmc.

(** [calculate_bearing lat1 lon1 lat2 lon2]: the forward azimuth of
    pyproj's WGS84 geodesic, a library outside the repository. *)
Variable calculate_bearing : R -> R -> R -> R -> R.

(** One iteration of the loop of [calculate_track_vmc]: the value of
    [VMC_km_h_1] for the row. *)
Definition track_vmc_row (course : list CompoundMark) (row : GpsRow.t) : result R :=
  let current_pos := (GpsRow.LATITUDE_GPS row, GpsRow.LONGITUDE_GPS row) in
  if (GpsRow.CURRENT_LEG_NUM row =? 7)%Z then Ok 0
  else
    cm <- py_index course (GpsRow.CURRENT_LEG_NUM row) ;;
    next_mark <- py_index (marks cm) 0 ;;
    let course_bearing :=
      calculate_bearing (fst current_pos) (snd current_pos)
        (mark_lat next_mark) (mark_lon next_mark) in
    Ok (Bearing.calculate_vmc (GpsRow.SPEED row) (GpsRow.HEADING row) course_bearing).

Definition calculate_track_vmc (boat_data : list GpsRow.t)
    (course : list CompoundMark) : result (list R) :=
  mapM (track_vmc_row course) boat_data.

End Vmc.

End Course.

(** ** src/race_analysis/leader.py *)

Module Leader.

(** A value of the dictionary built by [get_positions_at_timestamp]. *)
Record BoatInfo : Type := mkInfo {
  position : point;
  mark_idx : Z;
  dist_to_mark : R
}.

(** [boat_positions]: a Python dict, kept as its items in insertion
    order (the order in which [keys()] yields them). *)
Definition BoatPositions : Type := list (string * BoatInfo).

(** The [key] lambda of [determine_leader], on the item of [bid]:
    [boat_positions[bid]] is the value stored with [bid]. *)
Definition leader_key (item : string * BoatInfo) : Z * R :=
  ((- mark_idx (snd item))%Z, dist_to_mark (snd item)).

(** Python's [<] on pairs: the first components decide unless equal. *)
Definition key_lt (k1 k2 : Z * R) : bool :=
  if (fst k1 =? fst k2)%Z then Np.ltb (snd k1) (snd k2)
  else (fst k1 <? fst k2)%Z.

(** Python's [min(iterable, key=...)]: the first item whose key is
    minimal; a later item replaces the running minimum only when its key
    is strictly smaller. *)
Definition py_min {A : Type} (key : A -> Z * R) (first : A) (rest : list A) : A :=
  fold_left (fun best x => if key_lt (key x) (key best) then x else best)
    rest first.

Definition determine_leader (boat_positions : BoatPositions) : option string :=
  match boat_positions with
  | [] => None
  | item :: rest => Some (fst (py_min leader_key item rest))
  end.

End Leader.

(** ** src/race_analysis/dtl.py *)

Module Dtl.

(** [Series.searchsorted(value)] with the default [side='left'] on a
    sorted series: the first position whose element is not below
    [value], the length when there is none. *)
Fixpoint searchsorted (a : list Z) (value : Z) : nat :=
  match a with
  | [] => 0%nat
  | x :: rest => if (x <? value)%Z then S (searchsorted rest value) else 0%nat
  end.

(** The leader row a sample is matched with: [None] is the [continue]
    of the bound check. *)
Definition find_leader_row (leader_data : list LeaderRow.t) (row : GpsRow.t)
  : option LeaderRow.t :=
  let leader_idx :=
    searchsorted (map LeaderRow.DATETIME leader_data) (GpsRow.DATETIME row) in
  if (List.length leader_data <=? leader_idx)%nat then None
  else nth_error leader_data leader_idx.

(** The body of the loop of [calculate_dtl] once [leader_row] is known. *)
Definition dtl_record (course : list CompoundMark) (row : GpsRow.t)
    (leader_row : LeaderRow.t) : result DtlRow.t :=
  let boat_pos := (GpsRow.LATITUDE_GPS row, GpsRow.LONGITUDE_GPS row) in
  let leader_pos := (LeaderRow.LEADER_LAT leader_row, LeaderRow.LEADER_LON leader_row) in
  let dtl_direct := Gps.haversine_distance boat_pos leader_pos in
  let mark_idx := GpsRow.CURRENT_LEG_NUM row in
  cm <- py_index course mark_idx ;;
  next_mark <- py_index (marks cm) 0 ;;
  let dist_to_next := Gps.haversine_distance boat_pos (mark_pos next_mark) in
  let leader_dist_to_next := Gps.haversine_distance leader_pos (mark_pos next_mark) in
  let dtl_indirect := dist_to_next + leader_dist_to_next in
  let leg_behind := (LeaderRow.LEADER_LEG leader_row - mark_idx)%Z in
  let dtl_indirect :=
    if (mark_idx =? LeaderRow.LEADER_LEG leader_row)%Z then dtl_direct
    else dtl_indirect in
  let same_instant :=
    ((GpsRow.DATETIME row =? LeaderRow.DATETIME leader_row)%Z
     && Np.ltb dtl_direct 1)%bool in
  let dtl_indirect := if same_instant then 0 else dtl_indirect in
  let leg_behind := if same_instant then 0%Z else leg_behind in
  Ok (DtlRow.mk (GpsRow.DATETIME row) dtl_direct dtl_indirect leg_behind).

(** One iteration of the loop: [Ok None] when the row is skipped. *)
Definition dtl_row (leader_data : list LeaderRow.t) (course : list CompoundMark)
    (row : GpsRow.t) : result (option DtlRow.t) :=
  match find_leader_row leader_data row with
  | None => Ok None
  | Some leader_row =>
      r <- dtl_record course row leader_row ;;
      Ok (Some r)
  end.

(** The body of [calculate_dtl]: the rows of the returned frame. *)
Fixpoint calculate_dtl (position_data : list GpsRow.t)
    (leader_data : list LeaderRow.t) (course : list CompoundMark)
  : result (list DtlRow.t) :=
  match position_data with
  | [] => Ok []
  | row :: rest =>
      r <- dtl_row leader_data course row ;;
      rs <- calculate_dtl rest leader_data course ;;
      Ok (match r with Some d => d :: rs | None => rs end)
  end.

End Dtl.

(** ** Notions used to state the properties *)

(** Two consecutive leg numbers: the second is the first or the first
    plus one. *)
Definition leg_step (a b : Z) : Prop := (a <= b <= a + 1)%Z.

Definition leg_nums (out : list TrackRow.t) : list Z :=
  map TrackRow.CURRENT_LEG_NUM out.

(** A course the tracker can index: every compound mark has a mark. *)
Definition has_marks (course : list CompoundMark) : Prop :=
  Forall (fun cm => marks cm <> []) course.

(** ** Example data *)

Definition jump_points : list point := [(0, 0); (0, 0.01); (50, 50)].

Definition single_mark (name : string) (lat lon : R) : CompoundMark :=
  mkCompoundMark 1 name [mkMark name lat lon 1 None None] "Port" 1 50.

Definition gate (name : string) (p0 p1 : point) : CompoundMark :=
  mkCompoundMark 2 name
    [mkMark (name ++ "1") (fst p0) (snd p0) 1 None None;
     mkMark (name ++ "2") (fst p1) (snd p1) 2 None None] "Port" 2 50.

Definition boat_at (t : Z) (lat lon : R) : BoatRow.t := BoatRow.mk t lat lon.

(** The leg numbers [add_own_mark_tracking] writes, in row order. *)
Definition tracked_legs (boat_data : list BoatRow.t) (course : list CompoundMark)
  : result (list Z) :=
  out <- Course.add_own_mark_tracking boat_data course ;;
  Ok (leg_nums out).

(** A boat that stays on the point (0,0) for three samples. *)
Definition moored_boat : list BoatRow.t :=
  [boat_at 0 0 0; boat_at 1 0 0; boat_at 2 0 0].

Definition one_mark_course : list CompoundMark := [single_mark "M1" 0 0].

Definition two_mark_course : list CompoundMark :=
  [single_mark "M1" 0 0; single_mark "M2" 0 0].

(** The gate and the two samples of the gate-crossing example, and the
    same geometry a thousand times smaller. *)
Definition wide_gate : CompoundMark := gate "G" (0, 0) (0, 1).
Definition wide_crossing : list BoatRow.t :=
  [boat_at 0 (-1) 0.5; boat_at 1 1 0.5].

Definition small_gate : CompoundMark := gate "G" (0, 0) (0, 0.001).
Definition small_crossing : list BoatRow.t :=
  [boat_at 0 (-0.001) 0.0005; boat_at 1 0.001 0.0005].

Definition finish_mark : CompoundMark := single_mark "F" 0 0.002.

(** The order Python puts on the keys of [determine_leader]. *)
Definition lex_lt (k1 k2 : Z * R) : Prop :=
  (fst k1 < fst k2)%Z \/ (fst k1 = fst k2 /\ snd k1 < snd k2).

(** Boat A at mark index 2, 50 m from its next mark, and boat B at mark
    index 2, 10 m from it. *)
Definition two_boats : Leader.BoatPositions :=
  [("A"%string, Leader.mkInfo (0, 0) 2 50);
   ("B"%string, Leader.mkInfo (0, 0) 2 10)].

(** A leader stream sorted by timestamp. *)
Definition leader_sorted (leader_data : list LeaderRow.t) : Prop :=
  StronglySorted Z.le (map LeaderRow.DATETIME leader_data).

(** The sample is later than every record of the leader stream; on a
    sorted stream: later than its last record. *)
Definition after_leader_stream (leader_data : list LeaderRow.t) (row : GpsRow.t)
  : Prop :=
  forall l, In l leader_data -> (LeaderRow.DATETIME l < GpsRow.DATETIME row)%Z.

(** A leader stream with records at times 10 and 20, on legs 0 and 1,
    and a sample of a boat at time 15. *)
Definition leader10 : LeaderRow.t := LeaderRow.mk 10 "A" 0 0.01 0.
Definition leader20 : LeaderRow.t := LeaderRow.mk 20 "A" 0 0 1.
Definition leaders_10_20 : list LeaderRow.t := [leader10; leader20].
Definition sample_at (t : Z) : GpsRow.t := GpsRow.mk t 0 0 0 5 90.

(** A leader record at time 10 on leg 3, at the position of
    [sample_at 10], and a course whose first mark is elsewhere. *)
Definition leader_ahead : LeaderRow.t := LeaderRow.mk 10 "A" 0 0 3.
Definition far_mark_course : list CompoundMark := [single_mark "M1" 0 0.01].

(** A sample on leg [leg], at speed 5 and heading 90. *)
Definition sample_on_leg (leg : Z) : GpsRow.t := GpsRow.mk 0 0 0 leg 5 90.

Definition eight_mark_course : list CompoundMark :=
  repeat (single_mark "M" 0 0) 8.

Arguments Gps.haversine_distance : simpl never.
Arguments Np.leb : simpl never.
Arguments Np.ltb : simpl never.
Arguments Np.gtb : simpl never.
Arguments Np.eqb : simpl never.
Arguments Np.sign : simpl never.

(** ** Further notions *)

(** [l1] is [l2] with some elements left out, order kept. *)
Inductive subseq {A : Type} : list A -> list A -> Prop :=
| subseq_nil : subseq [] []
| subseq_skip (x : A) (l1 l2 : list A) : subseq l1 l2 -> subseq l1 (x :: l2)
| subseq_keep (x : A) (l1 l2 : list A) : subseq l1 l2 -> subseq (x :: l1) (x :: l2).

(** Two points at most [max_jump_meters] apart. *)
Definition within (max_jump_meters : R) (p q : point) : Prop :=
  Gps.haversine_distance p q <= max_jump_meters.

(** The points kept after [last_kept] by the loop of [filter_gps_jumps],
    as a recursion on the points still to read; [filter_gps_jumps_unfold]
    below shows it is what the loop appends. *)
Fixpoint kept_after (max_jump_meters : R) (last_kept : point) (rest : list point)
  : list point :=
  match rest with
  | [] => []
  | p :: rest' =>
      if Np.leb (Gps.haversine_distance last_kept p) max_jump_meters
      then p :: kept_after max_jump_meters p rest'
      else kept_after max_jump_meters last_kept rest'
  end.

(** The row written for every sample when the course is empty. *)
Definition finished_row : TrackRow.t := TrackRow.mk "FINISHED" 0 0.

(** A compound mark without marks, as no course file should give. *)
Definition empty_compound : CompoundMark := mkCompoundMark 9 "E" [] "Port" 9 50.

(** A position moved by [t] times the vector from mark [m0] to mark [m1]. *)
Definition shift_along (t : R) (m0 m1 : Mark) (p : point) : point :=
  (fst p + t * (mark_lat m1 - mark_lat m0), snd p + t * (mark_lon m1 - mark_lon m0)).

(** A sample at time 15 on leg 1, one leg past the end of a one-mark
    course. *)
Definition finished_sample : GpsRow.t := GpsRow.mk 15 0 0 1 5 90.

(** A bearing function for examples: due north everywhere. *)
Definition north_bearing (lat1 lon1 lat2 lon2 : R) : R := 0.

(** ** Exceptions other than [IndexError] *)

Inductive py_exn : Set :=
| PyIndexError
| PyKeyError
| PyValueError
| PyZeroDivisionError.

Inductive outcome (A : Type) : Type :=
| Return (a : A)
| Throw (e : py_exn).

Arguments Return {A} a.
Arguments Throw {A} e.

Definition lift {A : Type} (r : result A) : outcome A :=
  match r with
  | Ok a => Return a
  | Raise IndexError => Throw PyIndexError
  end.

Definition obind {A B : Type} (m : outcome A) (k : A -> outcome B) : outcome B :=
  match m with
  | Return a => k a
  | Throw e => Throw e
  end.

Notation "x <~ m ;; k" := (obind m (fun x => k))
  (at level 61, m at next level, right associativity).

(** ** src/race_analysis/leader.py, the leader stream *)

Module LeaderStream.

(** [all_boat_data]: a dict from boat id to the frame of the boat, kept
    as its items in insertion order; the ids of a dict are distinct. *)
Definition AllBoatData : Type := list (string * list GpsRow.t).

(** Insertion in an ascending list without repetition. *)
Fixpoint insert_ts (t : Z) (l : list Z) : list Z :=
  match l with
  | [] => [t]
  | x :: rest =>
      if (t <? x)%Z then t :: l
      else if (t =? x)%Z then l
      else x :: insert_ts t rest
  end.

(** [get_aligned_timestamps]: [sorted(list(timestamps))] for the set
    [timestamps] of every DATETIME of every boat, that is the distinct
    timestamps in ascending order. *)
Definition get_aligned_timestamps (all_boat_data : AllBoatData) : list Z :=
  fold_left (fun timestamps t => insert_ts t timestamps)
    (flat_map (fun item => map GpsRow.DATETIME (snd item)) all_boat_data) [].

(** [position_data_at_timestamp]: the first row of the mask, [None] when
    the mask is empty. *)
Definition position_data_at_timestamp (boat_data : list GpsRow.t) (timestamp : Z)
  : option GpsRow.t :=
  find (fun row => (GpsRow.DATETIME row =? timestamp)%Z) boat_data.

(** [get_positions_at_timestamp]; the ids being distinct, the
    assignment [boat_positions[boat_id] = ...] adds an item at the end. *)
Fixpoint get_positions_at_timestamp (timestamp : Z) (all_boat_data : AllBoatData)
    (course : list CompoundMark) : result Leader.BoatPositions :=
  match all_boat_data with
  | [] => Ok []
  | (boat_id, boat_data) :: rest =>
      match position_data_at_timestamp boat_data timestamp with
      | None => get_positions_at_timestamp timestamp rest course
      | Some data =>
          cm <- py_index course (GpsRow.CURRENT_LEG_NUM data) ;;
          next_mark <- py_index (marks cm) 0 ;;
          let pos := (GpsRow.LATITUDE_GPS data, GpsRow.LONGITUDE_GPS data) in
          let info :=
            Leader.mkInfo pos (GpsRow.CURRENT_LEG_NUM data)
              (Gps.haversine_distance pos (mark_pos next_mark)) in
          others <- get_positions_at_timestamp timestamp rest course ;;
          Ok ((boat_id, info) :: others)
      end
  end.

(** [boat_positions[key]] *)
Fixpoint dict_get (boat_positions : Leader.BoatPositions) (key : string)
  : outcome Leader.BoatInfo :=
  match boat_positions with
  | [] => Throw PyKeyError
  | (k, v) :: rest => if String.eqb k key then Return v else dict_get rest key
  end.

Definition create_leader_entry (timestamp : Z) (leader_id : string)
    (leader_info : Leader.BoatInfo) : LeaderRow.t :=
  LeaderRow.mk timestamp leader_id
    (fst (Leader.position leader_info)) (snd (Leader.position leader_info))
    (Leader.mark_idx leader_info).

(** One iteration of the loop of [identify_leader]: the entry appended
    for [timestamp], if any.  An empty dict and an empty string are
    falsy. *)
Definition leader_at (all_boat_data : AllBoatData) (course : list CompoundMark)
    (timestamp : Z) : outcome (option LeaderRow.t) :=
  boat_positions <~ lift (get_positions_at_timestamp timestamp all_boat_data course) ;;
  match boat_positions with
  | [] => Return None
  | _ :: _ =>
      match Leader.determine_leader boat_positions with
      | None => Return None
      | Some leader_id =>
          if String.eqb leader_id "" then Return None
          else
            leader <~ dict_get boat_positions leader_id ;;
            Return (Some (create_leader_entry timestamp leader_id leader))
      end
  end.

Fixpoint leader_loop (all_boat_data : AllBoatData) (course : list CompoundMark)
    (timestamps : list Z) : outcome (list LeaderRow.t) :=
  match timestamps with
  | [] => Return []
  | timestamp :: rest =>
      entry <~ leader_at all_boat_data course timestamp ;;
      entries <~ leader_loop all_boat_data course rest ;;
      Return (match entry with Some e => e :: entries | None => entries end)
  end.

(** [identify_leader]: the rows of the returned frame. *)
Definition identify_leader (all_boat_data : AllBoatData) (course : list CompoundMark)
  : outcome (list LeaderRow.t) :=
  leader_loop all_boat_data course (get_aligned_timestamps all_boat_data).

End LeaderStream.

(** A fleet: distinct, non-empty boat ids. *)
Definition fleet_ids_ok (all_boat_data : LeaderStream.AllBoatData) : Prop :=
  NoDup (map fst all_boat_data) /\
  Forall (fun item => fst item <> ""%string) all_boat_data.

(** Some boat of the fleet has a row at time [t]. *)
Definition has_sample_at (all_boat_data : LeaderStream.AllBoatData) (t : Z) : Prop :=
  exists item row, In item all_boat_data /\ In row (snd item) /\ GpsRow.DATETIME row = t.

(** Two boats sampled at times 10 and 20, and at 20 and 30. *)
Definition boat_a_rows : list GpsRow.t :=
  [GpsRow.mk 10 0 0 0 5 90; GpsRow.mk 20 0 0 0 5 90].
Definition boat_b_rows : list GpsRow.t :=
  [GpsRow.mk 20 0 0.01 0 6 90; GpsRow.mk 30 0 0.01 0 6 90].
Definition two_boat_fleet : LeaderStream.AllBoatData :=
  [("A"%string, boat_a_rows); ("B"%string, boat_b_rows)].

(** The leader record carries the position and the leg of the row. *)
Definition record_of_row (l : LeaderRow.t) (row : GpsRow.t) : Prop :=
  LeaderRow.LEADER_LAT l = GpsRow.LATITUDE_GPS row /\
  LeaderRow.LEADER_LON l = GpsRow.LONGITUDE_GPS row /\
  LeaderRow.LEADER_LEG l = GpsRow.CURRENT_LEG_NUM row.

(** The dictionary value [get_positions_at_timestamp] builds from a row. *)
Definition info_of_row (course : list CompoundMark) (row : GpsRow.t)
    (info : Leader.BoatInfo) : Prop :=
  Leader.position info = (GpsRow.LATITUDE_GPS row, GpsRow.LONGITUDE_GPS row) /\
  Leader.mark_idx info = GpsRow.CURRENT_LEG_NUM row /\
  exists cm m,
    py_index course (GpsRow.CURRENT_LEG_NUM row) = Ok cm /\
    py_index (marks cm) 0 = Ok m /\
    Leader.dist_to_mark info
    = Gps.haversine_distance (GpsRow.LATITUDE_GPS row, GpsRow.LONGITUDE_GPS row)
        (mark_pos m).

(** Python's [%] on floats with a positive divisor: the remainder of the
    floored division, in [0, b). *)
Definition py_fmod (a b : R) : R := a - b * IZR (Zfloor (a / b)).

(** ** src/navigation/course.py, [find_next_mark] *)

Module NextMark.

Section WithBearing.

(** pyproj's forward azimuth, as in [Course.calculate_track_vmc]. *)
Variable calculate_bearing : R -> R -> R -> R -> R.

(** [find_next_mark]; the pair [(None, None)] is [None].  Unpacking
    [mark1, mark2 = next_compound.marks] raises [ValueError] unless
    there are exactly two marks. *)
Definition find_next_mark (current_pos : point) (course : list CompoundMark)
    (current_mark_idx : Z) : outcome (option (Z * Mark)) :=
  if (Course.len_course course <=? current_mark_idx)%Z then Return None
  else
    next_compound <~ lift (py_index course current_mark_idx) ;;
    if (1 <? List.length (marks next_compound))%nat then
      match marks next_compound with
      | [mark1; mark2] =>
          let bearing1 :=
            calculate_bearing (fst current_pos) (snd current_pos)
              (mark_lat mark1) (mark_lon mark1) in
          let bearing2 :=
            calculate_bearing (fst current_pos) (snd current_pos)
              (mark_lat mark2) (mark_lon mark2) in
          Return (Some (current_mark_idx,
                        if Np.ltb bearing1 bearing2 then mark1 else mark2))
      | _ => Throw PyValueError
      end
    else
      m <~ lift (py_index (marks next_compound) 0) ;;
      Return (Some (current_mark_idx, m)).

End WithBearing.

End NextMark.

(** ** src/navigation/leg_analyzer.py *)

Module LegAnalyzer.

Section WithBearing.

Variable calculate_bearing : R -> R -> R -> R -> R.

(** The classification by relative wind angle that ends
    [determine_leg_type]. *)
Definition leg_type_by_angle (relative_wind : R) : string :=
  if ((Np.leb 0 relative_wind && Np.leb relative_wind 90)
      || (Np.leb 270 relative_wind && Np.leb relative_wind 360))%bool
  then "upwind"
  else if (Np.leb 150 relative_wind && Np.leb relative_wind 210)%bool
  then "downwind"
  else "reaching".

Definition determine_leg_type (start_mark end_mark : CompoundMark)
    (wind_direction : R) : result string :=
  s0 <- py_index (marks start_mark) 0 ;;
  e0 <- py_index (marks end_mark) 0 ;;
  let leg_bearing :=
    calculate_bearing (mark_lat s0) (mark_lon s0) (mark_lat e0) (mark_lon e0) in
  let relative_wind := py_fmod (wind_direction - leg_bearing) 360 in
  if (String.eqb (cm_name start_mark) "SL1" && String.eqb (cm_name end_mark) "M1")%bool
  then Ok "upwind"%string
  else if (String.eqb (cm_name start_mark) "M1"
           && String.prefix "LG" (cm_name end_mark))%bool
  then Ok "downwind"%string
  else if (String.prefix "LG" (cm_name start_mark)
           && String.prefix "WG" (cm_name end_mark))%bool
  then Ok "upwind"%string
  else if (String.prefix "WG" (cm_name start_mark)
           && String.prefix "LG" (cm_name end_mark))%bool
  then Ok "downwind"%string
  else Ok (leg_type_by_angle relative_wind).

End WithBearing.

End LegAnalyzer.

Definition three_gate : CompoundMark :=
  mkCompoundMark 3 "G3"
    [mkMark "a" 0 0 1 None None; mkMark "b" 0 1 2 None None;
     mkMark "c" 0 2 3 None None] "Port" 3 50.

(** Three boats with the same mark index and the same distance. *)
Definition tied_boats : Leader.BoatPositions :=
  [("C"%string, Leader.mkInfo (0, 0) 1 30);
   ("A"%string, Leader.mkInfo (0, 0) 1 30);
   ("B"%string, Leader.mkInfo (0, 0) 1 30)].

(** [np.degrees] and [np.rad2deg] *)
Definition degrees (rad : R) : R := rad * (180 / PI).

(** ** src/navigation/bearing.py, [calculate_intersection]

    [np.arcsin] and [np.arccos] are [asin] and [acos]; where numpy
    would give NaN (an argument outside [-1, 1], a division by zero) the
    real-number model has some value instead, so only what holds before
    such an operation is stated below. *)

Module Intersection.

Definition calculate_intersection (start_pos : point) (start_bearing : R)
    (end_pos : point) (end_bearing : R) : point :=
  let lat1 := Np.radians (fst start_pos) in
  let lon1 := Np.radians (snd start_pos) in
  let lat2 := Np.radians (fst end_pos) in
  let lon2 := Np.radians (snd end_pos) in
  let brng1 := Np.radians start_bearing in
  let brng2 := Np.radians end_bearing in
  let dlat := lat2 - lat1 in
  let dlon := lon2 - lon1 in
  let dist12 :=
    2 * asin (sqrt (sin (dlat / 2) ^ 2
                    + cos lat1 * cos lat2 * sin (dlon / 2) ^ 2)) in
  if Np.eqb dist12 0 then start_pos
  else
    let brngA :=
      acos ((sin lat2 - sin lat1 * cos dist12) / (sin dist12 * cos lat1)) in
    let brngB :=
      acos ((sin lat1 - sin lat2 * cos dist12) / (sin dist12 * cos lat2)) in
    let brng12 := if Np.gtb (sin dlon) 0 then brngA else 2 * PI - brngA in
    let brng21 := if Np.gtb (sin dlon) 0 then 2 * PI - brngB else brngB in
    let alpha1 := py_fmod (brng1 - brng12 + PI) (2 * PI) - PI in
    let alpha2 := py_fmod (brng21 - brng2 + PI) (2 * PI) - PI in
    if (Np.eqb (sin alpha1) 0 && Np.eqb (sin alpha2) 0)%bool then start_pos
    else if Np.ltb (sin alpha1 * sin alpha2) 0 then start_pos
    else
      let alpha3 :=
        acos (- cos alpha1 * cos alpha2
              + sin alpha1 * sin alpha2 * cos dist12) in
      let dist13 :=
        Np.arctan2 (sin dist12 * sin alpha1 * sin alpha2)
          (cos alpha2 + cos alpha1 * cos alpha3) in
      let lat3 :=
        asin (sin lat1 * cos dist13 + cos lat1 * sin dist13 * cos brng1) in
      let dlon13 :=
        Np.arctan2 (sin brng1 * sin dist13 * cos lat1)
          (cos dist13 - sin lat1 * sin lat3) in
      let lon3 := lon1 + dlon13 in
      (degrees lat3, degrees lon3).

End Intersection.

(** ** src/navigation/compass.py *)

Module Compass.

(** [int(x)] on a float: truncation towards zero. *)
Definition py_int (x : R) : Z := if Rle_dec 0 x then Zfloor x else Zceil x.

(** [np.mean] of a non-empty array. *)
Definition mean (l : list R) : R := fold_right Rplus 0 l / INR (List.length l).

(** [range(i, stop, step)] for a positive step; [fuel] bounds the number
    of items. *)
Fixpoint range_step (fuel i stop step : nat) : list nat :=
  match fuel with
  | O => []
  | S fuel' =>
      if (i <? stop)%nat then i :: range_step fuel' (i + step) stop step else []
  end.

(** [l[i:j]] for [0 <= i] and [0 <= j]. *)
Definition slice {A : Type} (l : list A) (i j : nat) : list A :=
  firstn (j - i) (skipn i l).

(** The body of the loop of [calculate_compass_average]: the value
    appended for one window. *)
Definition window_average (window : list R) : R :=
  let radians := map Np.radians window in
  let x := map cos radians in
  let y := map sin radians in
  let mean_x := mean x in
  let mean_y := mean y in
  let mean_direction := degrees (Np.arctan2 mean_y mean_x) in
  py_fmod (mean_direction + 360) 360.

(** [calculate_compass_average]: the values of the returned series.  The
    division raises [ZeroDivisionError] for a zero [target_rate], and
    [range] raises [ValueError] for a zero step; a negative step gives
    an empty range. *)
Definition calculate_compass_average (directions : list R)
    (sample_rate target_rate : R) : outcome (list R) :=
  if Np.eqb target_rate 0 then Throw PyZeroDivisionError
  else
    let window_size := py_int (sample_rate / target_rate) in
    if (window_size =? 0)%Z then Throw PyValueError
    else if (window_size <? 0)%Z then Return []
    else
      let n := List.length directions in
      let w := Z.to_nat window_size in
      Return (map (fun i => window_average (slice directions i (Nat.min (i + w) n)))
                (range_step n 0 n w)).

End Compass.

(** * Properties *)

(** ** Comparisons on reals *)

Lemma leb_true (x y : R) : x <= y -> Np.leb x y = true.
Proof. intros H. unfold Np.leb. destruct (Rle_dec x y); [reflexivity | contradiction]. Qed.

Lemma leb_false (x y : R) : y < x -> Np.leb x y = false.
Proof. intros H. unfold Np.leb. destruct (Rle_dec x y); [lra | reflexivity]. Qed.

Lemma ltb_true (x y : R) : x < y -> Np.ltb x y = true.
Proof. intros H. unfold Np.ltb. destruct (Rlt_dec x y); [reflexivity | contradiction]. Qed.

Lemma ltb_false (x y : R) : y <= x -> Np.ltb x y = false.
Proof. intros H. unfold Np.ltb. destruct (Rlt_dec x y); [lra | reflexivity]. Qed.

Lemma ltb_spec (x y : R) : Np.ltb x y = true <-> x < y.
Proof.
  unfold Np.ltb. destruct (Rlt_dec x y); split; intros; try assumption;
    try reflexivity; try discriminate; contradiction.
Qed.

Lemma gtb_true (x y : R) : y < x -> Np.gtb x y = true.
Proof. intros H. unfold Np.gtb. now apply ltb_true. Qed.

Lemma gtb_false (x y : R) : x <= y -> Np.gtb x y = false.
Proof. intros H. unfold Np.gtb. now apply ltb_false. Qed.

Lemma eqb_neq (x y : R) : x <> y -> Np.eqb x y = false.
Proof. intros H. unfold Np.eqb. destruct (Req_dec_T x y); [contradiction | reflexivity]. Qed.

Lemma sign_neg (x : R) : x < 0 -> Np.sign x = -1.
Proof. intros H. unfold Np.sign. destruct (Rlt_dec x 0); [reflexivity | lra]. Qed.

Lemma sign_pos (x : R) : 0 < x -> Np.sign x = 1.
Proof.
  intros H. unfold Np.sign.
  destruct (Rlt_dec x 0); [lra |]. destruct (Rlt_dec 0 x); [reflexivity | lra].
Qed.

(** ** Bounds on pi and on the sine *)

Lemma PI_gt_3 : 3 < PI.
Proof. pose proof PI2_3_2. lra. Qed.

Lemma sin_lower (x : R) : 0 <= x <= PI -> x - x ^ 3 / 6 <= sin x.
Proof.
  intros [H0 H1].
  destruct (sin_bound x 0 H0 H1) as [H _].
  unfold sin_approx, sin_term in H. simpl in H.
  lra.
Qed.

Lemma sin_ge_half (x : R) : 0 <= x <= 1 -> x / 2 <= sin x.
Proof.
  intros [H0 H1].
  assert (Hs : x - x ^ 3 / 6 <= sin x).
  { apply sin_lower. pose proof PI_gt_3. lra. }
  assert (Hx : x ^ 3 <= x) by nra.
  lra.
Qed.

(** ** The angle of [haversine_distance] *)

Lemma arctan2_0_1 : Np.arctan2 0 1 = 0.
Proof.
  unfold Np.arctan2. destruct (Rlt_dec 0 1); [| lra].
  replace (0 / 1) with 0 by field. apply atan_0.
Qed.

(** On the unit quarter circle the sine of [arctan2 y x] is [y]. *)
Lemma sin_arctan2_unit (x y : R) :
  0 < x -> x * x + y * y = 1 -> sin (Np.arctan2 y x) = y.
Proof.
  intros Hx Hxy. unfold Np.arctan2.
  destruct (Rlt_dec 0 x); [| contradiction].
  rewrite sin_atan.
  assert (E : 1 + (y / x)² = (/ x)²).
  { unfold Rsqr.
    replace (1 + y / x * (y / x)) with ((x * x + y * y) * (/ x * / x))
      by (field; lra).
    rewrite Hxy. ring. }
  rewrite E, sqrt_Rsqr.
  - field. lra.
  - left. now apply Rinv_0_lt_compat.
Qed.

Lemma arctan2_nonneg (x y : R) : 0 <= x -> 0 <= y -> 0 <= Np.arctan2 y x.
Proof.
  intros Hx Hy. unfold Np.arctan2.
  destruct (Rlt_dec 0 x) as [Hpos |].
  - destruct Hy as [Hy | <-].
    + left. rewrite <- atan_0. apply atan_increasing.
      apply Rdiv_lt_0_compat; assumption.
    + replace (0 / x) with 0 by (field; lra). rewrite atan_0. lra.
  - destruct (Rlt_dec x 0); [lra |].
    destruct (Rlt_dec 0 y); [pose proof PI_RGT_0; lra |].
    destruct (Rlt_dec y 0); lra.
Qed.

(** The half-angle [arctan2 (sqrt a) (sqrt (1 - a))] is at least any
    [t] in [0,1] whose square is at most [a]. *)
Lemma half_angle_lower (a t : R) :
  0 <= t <= 1 -> t ^ 2 <= a -> t <= Np.arctan2 (sqrt a) (sqrt (1 - a)).
Proof.
  intros [Ht0 Ht1] Hta.
  assert (Ha : 0 <= a) by nra.
  assert (Hy : t <= sqrt a).
  { rewrite <- (sqrt_pow2 t Ht0). apply sqrt_le_1; nra. }
  destruct (Rlt_dec a 1) as [Hlt | Hge].
  - assert (Hx : 0 < sqrt (1 - a)) by (apply sqrt_lt_R0; lra).
    assert (Hs : sin (Np.arctan2 (sqrt a) (sqrt (1 - a))) = sqrt a).
    { apply sin_arctan2_unit; [assumption |].
      rewrite !sqrt_def by lra. ring. }
    pose proof (arctan2_nonneg (sqrt (1 - a)) (sqrt a) (sqrt_pos _) (sqrt_pos _)) as Hnn.
    destruct Hnn as [Hpos | Hz].
    + pose proof (sin_lt_x _ Hpos). lra.
    + rewrite <- Hz in Hs. rewrite sin_0 in Hs. lra.
  - assert (Hx : sqrt (1 - a) = 0) by (apply sqrt_neg_0; lra).
    assert (H1 : 1 <= sqrt a).
    { rewrite <- sqrt_1. apply sqrt_le_1; lra. }
    rewrite Hx. unfold Np.arctan2.
    destruct (Rlt_dec 0 0); [lra |].
    destruct (Rlt_dec 0 (sqrt a)); [| lra].
    pose proof PI2_1. lra.
Qed.

(** ** Facts on [haversine_distance] shared by the proofs below *)

Lemma haversine_a_self (p : point) : Gps.haversine_a p p = 0.
Proof.
  unfold Gps.haversine_a. cbv zeta.
  replace ((Np.radians (fst p) - Np.radians (fst p)) / 2) with 0 by field.
  replace ((Np.radians (snd p) - Np.radians (snd p)) / 2) with 0 by field.
  rewrite sin_0. ring.
Qed.

Lemma haversine_self (p : point) : Gps.haversine_distance p p = 0.
Proof.
  unfold Gps.haversine_distance. cbv zeta.
  rewrite haversine_a_self, Rminus_0_r, sqrt_0, sqrt_1, arctan2_0_1. ring.
Qed.

Lemma haversine_lower (p q : point) (t : R) :
  0 <= t <= 1 -> t ^ 2 <= Gps.haversine_a p q ->
  2 * Gps.EARTH_R * t <= Gps.haversine_distance p q.
Proof.
  intros Ht Ha. unfold Gps.haversine_distance. cbv zeta.
  pose proof (half_angle_lower _ _ Ht Ha) as H.
  unfold Gps.EARTH_R. lra.
Qed.

(** [a] is at least its latitude term when both cosines are
    non-negative, that is for latitudes within [-90, 90] degrees. *)
Lemma haversine_a_lat (p q : point) :
  -90 <= fst p <= 90 -> -90 <= fst q <= 90 ->
  sin ((Np.radians (fst q) - Np.radians (fst p)) / 2) ^ 2 <= Gps.haversine_a p q.
Proof.
  intros Hp Hq. unfold Gps.haversine_a. cbv zeta.
  assert (Hc : forall d, -90 <= d <= 90 -> 0 <= cos (Np.radians d)).
  { intros d Hd. pose proof PI_RGT_0. apply cos_ge_0; unfold Np.radians; nra. }
  pose proof (Hc _ Hp). pose proof (Hc _ Hq).
  pose proof (pow2_ge_0 (sin ((Np.radians (snd q) - Np.radians (snd p)) / 2))).
  assert (0 <= cos (Np.radians (fst p)) * cos (Np.radians (fst q))) by nra.
  nra.
Qed.

Lemma haversine_a_sym (p q : point) : Gps.haversine_a p q = Gps.haversine_a q p.
Proof.
  unfold Gps.haversine_a. cbv zeta.
  replace ((Np.radians (fst p) - Np.radians (fst q)) / 2)
    with (- ((Np.radians (fst q) - Np.radians (fst p)) / 2)) by field.
  replace ((Np.radians (snd p) - Np.radians (snd q)) / 2)
    with (- ((Np.radians (snd q) - Np.radians (snd p)) / 2)) by field.
  rewrite !sin_neg. ring.
Qed.

Lemma sq_le_sq_abs (t s : R) : 0 <= t -> t <= Rabs s -> t ^ 2 <= s ^ 2.
Proof.
  intros Ht Hs. rewrite <- (pow2_abs s). pose proof (Rabs_pos s). nra.
Qed.

(** Two points whose latitudes differ are at least [2 R t] apart when
    [t] bounds the sine of half the latitude difference from below. *)
Lemma haversine_far_lat (p q : point) (t : R) :
  -90 <= fst p <= 90 -> -90 <= fst q <= 90 -> 0 <= t <= 1 ->
  t <= Rabs (sin ((Np.radians (fst q) - Np.radians (fst p)) / 2)) ->
  2 * Gps.EARTH_R * t <= Gps.haversine_distance p q.
Proof.
  intros Hp Hq Ht Hs. apply haversine_lower; [assumption |].
  eapply Rle_trans; [| apply haversine_a_lat; assumption].
  apply sq_le_sq_abs; [lra | assumption].
Qed.

(** On the equator [a] is the longitude term alone. *)
Lemma haversine_a_equator (lon1 lon2 : R) :
  Gps.haversine_a (0, lon1) (0, lon2)
  = sin ((Np.radians lon2 - Np.radians lon1) / 2) ^ 2.
Proof.
  unfold Gps.haversine_a. cbv zeta. simpl fst. simpl snd.
  unfold Np.radians at 1 2 3 4. rewrite !Rmult_0_l.
  replace ((0 - 0) / 2) with 0 by field. rewrite sin_0, cos_0. ring.
Qed.

(** One hundredth of a degree along the equator is more than 500 m. *)
Lemma equator_hundredth_far : 500 < Gps.haversine_distance (0, 0) (0, 0.01).
Proof.
  pose proof PI_gt_3 as H3. pose proof PI_4 as H4.
  assert (Hs : 0.01 * (PI / 180) / 2 / 2 <= sin (0.01 * (PI / 180) / 2)).
  { apply sin_ge_half. lra. }
  eapply Rlt_le_trans;
    [| apply (haversine_lower _ _ (0.01 * (3 / 180) / 2 / 2)); [lra |]].
  - unfold Gps.EARTH_R. lra.
  - rewrite haversine_a_equator. unfold Np.radians.
    replace ((0.01 * (PI / 180) - 0 * (PI / 180)) / 2)
      with (0.01 * (PI / 180) / 2) by field.
    apply sq_le_sq_abs; [lra |].
    eapply Rle_trans; [| apply Rle_abs]. lra.
Qed.

(** Fifty degrees of latitude are more than 1000 km. *)
Lemma fifty_degrees_far : 1000000 < Gps.haversine_distance (0, 0) (50, 50).
Proof.
  pose proof PI_gt_3 as H3. pose proof PI_4 as H4.
  assert (Hs : 50 * (PI / 180) / 2 / 2 <= sin (50 * (PI / 180) / 2)).
  { apply sin_ge_half. lra. }
  eapply Rlt_le_trans;
    [| apply (haversine_far_lat _ _ (1 / 5)); simpl fst; try lra].
  - unfold Gps.EARTH_R. lra.
  - unfold Np.radians.
    replace ((50 * (PI / 180) - 0 * (PI / 180)) / 2)
      with (50 * (PI / 180) / 2) by field.
    eapply Rle_trans; [| apply Rle_abs]. lra.
Qed.

(** Two degrees of latitude are more than 100 km. *)
Lemma two_degrees_far : 100000 < Gps.haversine_distance (1, 0.5) (-1, 0.5).
Proof.
  pose proof PI_gt_3 as H3. pose proof PI_4 as H4.
  assert (Hs : PI / 180 / 2 <= sin (PI / 180)).
  { apply sin_ge_half. lra. }
  eapply Rlt_le_trans;
    [| apply (haversine_far_lat _ _ (1 / 120)); simpl fst; try lra].
  - unfold Gps.EARTH_R. lra.
  - unfold Np.radians.
    replace ((-1 * (PI / 180) - 1 * (PI / 180)) / 2)
      with (- (PI / 180)) by field.
    rewrite sin_neg, Rabs_Ropp.
    eapply Rle_trans; [| apply Rle_abs]. lra.
Qed.

(** ** Geodesy primitives *)

(** C9. [haversine_distance p p] is 0 for every point [p],
    [haversine_distance] is symmetric in its two points, and the radius
    it multiplies the central angle with is 6 371 000 m. *)
Theorem haversine_zero_and_symmetric :
  (forall p : point, Gps.haversine_distance p p = 0) /\
  (forall a b : point, Gps.haversine_distance a b = Gps.haversine_distance b a) /\
  Gps.EARTH_R = 6371000 /\
  (forall a b : point, Gps.haversine_distance a b
     = 6371000 * (2 * Np.arctan2 (sqrt (Gps.haversine_a a b))
                                 (sqrt (1 - Gps.haversine_a a b)))).
Proof.
  split; [| split; [| split]].
  - intros p. unfold Gps.haversine_distance. cbv zeta.
    rewrite haversine_a_self, Rminus_0_r, sqrt_0, sqrt_1, arctan2_0_1. ring.
  - intros a b. unfold Gps.haversine_distance. cbv zeta.
    now rewrite (haversine_a_sym a b).
  - reflexivity.
  - intros a b. reflexivity.
Qed.

(** C3 (as stated, refuted). On [(0,0), (0,0.01), (50,50)] with
    [max_jump_meters = 100] the filter does not return the first two
    points. *)
Lemma jump_filter_drops_second_point :
  Gps.filter_gps_jumps jump_points 100 <> [(0, 0); (0, 0.01)].
Proof.
  unfold jump_points, Gps.filter_gps_jumps. simpl fold_left.
  unfold Gps.filter_step at 2. simpl last.
  rewrite leb_false by (pose proof equator_hundredth_far; lra).
  unfold Gps.filter_step. simpl last.
  rewrite leb_false by (pose proof fifty_degrees_far; lra).
  discriminate.
Qed.

(** C3 (amended). On [(0,0), (0,0.01), (50,50)] with
    [max_jump_meters = 100] the second point is more than 100 m from the
    first and the third more than 100 m from the last kept point, which
    is still the first: the filter returns the first point alone. *)
Theorem filter_gps_jumps_example :
  100 < Gps.haversine_distance (0, 0) (0, 0.01) /\
  100 < Gps.haversine_distance (0, 0) (50, 50) /\
  Gps.filter_gps_jumps jump_points 100 = [(0, 0)].
Proof.
  assert (H1 : 100 < Gps.haversine_distance (0, 0) (0, 0.01))
    by (pose proof equator_hundredth_far; lra).
  assert (H2 : 100 < Gps.haversine_distance (0, 0) (50, 50))
    by (pose proof fifty_degrees_far; lra).
  repeat split; try assumption.
  unfold jump_points, Gps.filter_gps_jumps. simpl fold_left.
  unfold Gps.filter_step at 2. simpl last.
  rewrite (leb_false _ _ H1).
  unfold Gps.filter_step. simpl last.
  now rewrite (leb_false _ _ H2).
Qed.

(** ** Mark-progression tracker *)

Lemma bind_ok {A B : Type} (m : result A) (k : A -> result B) (b : B) :
  bind m k = Ok b -> exists a, m = Ok a /\ k a = Ok b.
Proof. destruct m as [a | e]; simpl; intros H; [eauto | discriminate]. Qed.

Ltac inv_bind H :=
  let a := fresh "a" in
  let Ha := fresh "Ha" in
  apply bind_ok in H; destruct H as (a & Ha & H).

Ltac inv_ok H := injection H as H; subst.

(** The rounding check moves the index by zero or one. *)
Lemma advance_leg_step (course : list CompoundMark) (st : Course.ProgressState)
    (p : point) (idx : Z) :
  Course.advance course st p = Ok idx ->
  leg_step (Course.current_mark_idx st) idx.
Proof.
  unfold Course.advance, leg_step. intros H.
  destruct (Course.prev_pos st) as [prev |].
  - destruct (Course.current_mark_idx st <? Course.len_course course - 1)%Z.
    + inv_bind H. inv_bind H. inv_ok H. destruct a0; lia.
    + inv_ok H. lia.
  - inv_ok H. lia.
Qed.

(** The index written in a row is the one the rounding check returned. *)
Lemma next_mark_info_leg (course : list CompoundMark) (idx : Z) (p : point)
    (out : TrackRow.t) :
  Course.next_mark_info course idx p = Ok out -> TrackRow.CURRENT_LEG_NUM out = idx.
Proof.
  unfold Course.next_mark_info. intros H.
  destruct (Course.len_course course <=? idx)%Z.
  - now inv_ok H.
  - inv_bind H. inv_bind H. now inv_ok H.
Qed.

Lemma track_step_leg (course : list CompoundMark) (st : Course.ProgressState)
    (row : BoatRow.t) (r : TrackRow.t * Course.ProgressState) :
  Course.track_step course st row = Ok r ->
  leg_step (Course.current_mark_idx st) (TrackRow.CURRENT_LEG_NUM (fst r)) /\
  Course.current_mark_idx (snd r) = TrackRow.CURRENT_LEG_NUM (fst r) /\
  Course.prev_pos (snd r) <> None.
Proof.
  unfold Course.track_step. intros H.
  inv_bind H. inv_bind H. inv_ok H. simpl.
  apply advance_leg_step in Ha. apply next_mark_info_leg in Ha0.
  rewrite Ha0. repeat split; [apply Ha | apply Ha | discriminate].
Qed.

(** Along the loop every emitted index is one step from the one before,
    starting from the index the loop was entered with. *)
Lemma track_loop_steps (course : list CompoundMark) (rows : list BoatRow.t) :
  forall (st : Course.ProgressState) (out : list TrackRow.t),
    Course.track_loop course st rows = Ok out ->
    List.length out = List.length rows /\
    Sorted leg_step (Course.current_mark_idx st :: leg_nums out).
Proof.
  induction rows as [| row rest IH]; intros st out H; simpl in H.
  - inv_ok H. split; [reflexivity |]. repeat constructor.
  - inv_bind H. inv_bind H. inv_ok H.
    destruct (track_step_leg _ _ _ _ Ha) as (Hstep & Hidx & _).
    destruct (IH _ _ Ha0) as (Hlen & Hsorted).
    split; [simpl; now rewrite Hlen |].
    rewrite Hidx in Hsorted. simpl.
    constructor; [exact Hsorted | constructor; exact Hstep].
Qed.

Lemma leg_step_le (a b : Z) : leg_step a b -> (a <= b)%Z.
Proof. unfold leg_step. lia. Qed.

Lemma Sorted_weaken {A : Type} (P Q : A -> A -> Prop) (l : list A) :
  (forall a b, P a b -> Q a b) -> Sorted P l -> Sorted Q l.
Proof.
  intros HPQ. induction 1 as [| a l Hs IH Hhd]; constructor; [assumption |].
  destruct Hhd; constructor; auto.
Qed.

Lemma Sorted_le_strong (l : list Z) : Sorted Z.le l -> StronglySorted Z.le l.
Proof.
  apply Sorted_StronglySorted. intros a b c. apply Z.le_trans.
Qed.

(** C2. Whatever the course and the position stream, the leg indices of
    the rows [add_own_mark_tracking] returns (one per input row) never
    decrease: every index is at most any later one, and two consecutive
    indices differ by zero or one. *)
Theorem tracker_legs_monotone (boat_data : list BoatRow.t)
    (course : list CompoundMark) (out : list TrackRow.t) :
  Course.add_own_mark_tracking boat_data course = Ok out ->
  List.length out = List.length boat_data /\
  StronglySorted Z.le (leg_nums out) /\
  Sorted leg_step (leg_nums out) /\
  (forall (i : nat) (a b : Z),
      nth_error (leg_nums out) i = Some a ->
      nth_error (leg_nums out) (S i) = Some b ->
      (a <= b <= a + 1)%Z).
Proof.
  unfold Course.add_own_mark_tracking. intros H.
  destruct (track_loop_steps _ _ _ _ H) as (Hlen & Hs). simpl in Hs.
  assert (Hs' : Sorted leg_step (leg_nums out)) by (inversion Hs; assumption).
  split; [exact Hlen |]. split; [| split; [exact Hs' |]].
  - apply Sorted_le_strong. eapply Sorted_weaken; [apply leg_step_le | exact Hs'].
  - clear - Hs'. induction Hs' as [| x l Hl IH Hhd]; intros i a b Ha Hb.
    + destruct i; discriminate.
    + destruct i as [| i]; simpl in Ha, Hb.
      * injection Ha as <-. destruct l as [| y l']; [discriminate |].
        simpl in Hb. injection Hb as <-. inversion Hhd; subst. assumption.
      * eapply IH; eassumption.
Qed.

Lemma py_index_in_range {A : Type} (l : list A) (i : Z) :
  (0 <= i < Z.of_nat (List.length l))%Z ->
  exists a, py_index l i = Ok a /\ In a l.
Proof.
  intros Hi. unfold py_index.
  destruct (Z.ltb_spec i 0) as [Hneg | _]; [lia |].
  destruct (Z.leb_spec 0 i) as [_ | Hneg]; [| lia].
  destruct (Z.ltb_spec i (Z.of_nat (List.length l))) as [_ | Hge]; [| lia].
  simpl. destruct (nth_error l (Z.to_nat i)) as [a |] eqn:E.
  - exists a. split; [reflexivity |]. eapply nth_error_In; eassumption.
  - apply nth_error_None in E. lia.
Qed.

Lemma is_mark_rounded_total (p : point) (cm : CompoundMark) (prev : option point) :
  marks cm <> [] -> exists b, Course.is_mark_rounded p cm prev = Ok b.
Proof.
  intros Hne. unfold Course.is_mark_rounded.
  destruct (Course.position_jumped p prev); [eauto |].
  destruct (Nat.eqb_spec (List.length (marks cm)) 1) as [H1 | H1].
  - destruct (py_index_in_range (marks cm) 0) as (m0 & -> & _); [lia |].
    simpl. eauto.
  - destruct prev as [q |]; [| eauto].
    destruct (existsb _ _); [eauto |].
    assert (Hlen : (2 <= List.length (marks cm))%nat).
    { destruct (marks cm) as [| ? [| ? ?]]; simpl in *; try lia. congruence. }
    destruct (py_index_in_range (marks cm) 1) as (m1 & -> & _); [lia |].
    destruct (py_index_in_range (marks cm) 0) as (m0 & -> & _); [lia |].
    simpl. eauto.
Qed.

(** On a course whose compound marks all have a mark, a step of the
    loop raises nothing and keeps the index inside the course. *)
Lemma track_step_total (course : list CompoundMark) (st : Course.ProgressState)
    (row : BoatRow.t) :
  has_marks course ->
  (0 <= Course.current_mark_idx st)%Z ->
  exists r, Course.track_step course st row = Ok r /\
            (0 <= Course.current_mark_idx (snd r))%Z.
Proof.
  intros Hm H0. unfold Course.track_step.
  set (p := (BoatRow.LATITUDE_GPS_unk row, BoatRow.LONGITUDE_GPS_unk row)).
  assert (Hadv : exists idx, Course.advance course st p = Ok idx /\ (0 <= idx)%Z).
  { unfold Course.advance. destruct (Course.prev_pos st) as [prev |]; [| eauto].
    destruct (Z.ltb_spec (Course.current_mark_idx st) (Course.len_course course - 1))
      as [Hlt | Hge]; [| eauto].
    destruct (py_index_in_range course (Course.current_mark_idx st))
      as (cm & -> & Hin); [unfold Course.len_course in Hlt; lia |].
    simpl. unfold has_marks in Hm. rewrite Forall_forall in Hm.
    destruct (is_mark_rounded_total p cm (Some prev) (Hm _ Hin)) as (b & ->).
    simpl. destruct b; eexists; split; try reflexivity; lia. }
  destruct Hadv as (idx & -> & Hidx). simpl.
  unfold Course.next_mark_info.
  destruct (Z.leb_spec (Course.len_course course) idx) as [Hfin | Hlt].
  - simpl. eexists; split; [reflexivity | exact Hidx].
  - destruct (py_index_in_range course idx) as (cm & -> & Hin);
      [unfold Course.len_course in Hlt; lia |].
    simpl. unfold has_marks in Hm. rewrite Forall_forall in Hm.
    destruct (py_index_in_range (marks cm) 0) as (m & -> & _).
    { specialize (Hm _ Hin). destruct (marks cm); [congruence | simpl; lia]. }
    simpl. eexists; split; [reflexivity | exact Hidx].
Qed.

(** The tracker returns on every stream when the course is well formed. *)
Lemma tracker_total (course : list CompoundMark) (boat_data : list BoatRow.t) :
  has_marks course ->
  exists out, Course.add_own_mark_tracking boat_data course = Ok out.
Proof.
  intros Hm. unfold Course.add_own_mark_tracking.
  assert (H : forall rows st, (0 <= Course.current_mark_idx st)%Z ->
            exists out, Course.track_loop course st rows = Ok out).
  { induction rows as [| row rest IH]; intros st H0; simpl; [eauto |].
    destruct (track_step_total course st row Hm H0) as (r & -> & H0').
    simpl. destruct (IH _ H0') as (outs & ->). simpl. eauto. }
  apply H. simpl. lia.
Qed.

(** The guard [current_mark_idx < len(course) - 1] keeps the index
    below the length of a non-empty course. *)
Lemma advance_below_len (course : list CompoundMark) (st : Course.ProgressState)
    (p : point) (idx : Z) :
  (Course.current_mark_idx st < Course.len_course course)%Z ->
  Course.advance course st p = Ok idx ->
  (idx < Course.len_course course)%Z.
Proof.
  intros Hlt H. unfold Course.advance in H.
  destruct (Course.prev_pos st).
  - destruct (Z.ltb_spec (Course.current_mark_idx st) (Course.len_course course - 1)).
    + apply bind_ok in H. destruct H as (cm & _ & H).
      apply bind_ok in H. destruct H as (rounded & _ & H).
      inv_ok H. destruct rounded; lia.
    + inv_ok H. lia.
  - inv_ok H. lia.
Qed.

Lemma track_loop_below_len (course : list CompoundMark) (rows : list BoatRow.t) :
  forall (st : Course.ProgressState) (out : list TrackRow.t),
    (Course.current_mark_idx st < Course.len_course course)%Z ->
    Course.track_loop course st rows = Ok out ->
    Forall (fun r => (TrackRow.CURRENT_LEG_NUM r < Course.len_course course)%Z) out.
Proof.
  induction rows as [| row rest IH]; intros st out Hlt H; simpl in H.
  - inv_ok H. constructor.
  - apply bind_ok in H. destruct H as (r & Hr & H).
    apply bind_ok in H. destruct H as (outs & Houts & H). inv_ok H.
    destruct (track_step_leg _ _ _ _ Hr) as (_ & Hidx & _).
    unfold Course.track_step in Hr.
    apply bind_ok in Hr. destruct Hr as (idx & Hadv & Hr).
    apply bind_ok in Hr. destruct Hr as (o & Ho & Hr). inv_ok Hr.
    simpl in *. apply next_mark_info_leg in Ho. subst idx.
    pose proof (advance_below_len _ _ _ _ Hlt Hadv) as Hb.
    constructor; [exact Hb |].
    eapply IH; [| exact Houts]. simpl. exact Hb.
Qed.

(** On a course of at least one compound mark the tracker never emits
    the index [len(course)]: the "FINISHED" branch is not reached. *)
Lemma tracker_never_finished (boat_data : list BoatRow.t)
    (course : list CompoundMark) (out : list TrackRow.t) :
  course <> [] ->
  Course.add_own_mark_tracking boat_data course = Ok out ->
  Forall (fun r => (TrackRow.CURRENT_LEG_NUM r < Course.len_course course)%Z) out.
Proof.
  intros Hne H. eapply track_loop_below_len; [| exact H].
  simpl. unfold Course.len_course. destruct course; [congruence | simpl; lia].
Qed.

(** Evaluation of the model on concrete data: everything is computed
    except the real-number primitives, which the proofs settle. *)
Ltac run_model :=
  cbv -[Gps.haversine_distance Np.leb Np.ltb Np.gtb Np.eqb Np.sign Np.cross
        Rplus Rminus Rmult Rdiv Ropp Rinv Rabs IZR Q2R pow].

Lemma moored_two_marks :
  Course.add_own_mark_tracking moored_boat two_mark_course
  = Ok [TrackRow.mk "M1" 0 0; TrackRow.mk "M2" 0 1; TrackRow.mk "M2" 0 1].
Proof.
  run_model. rewrite !haversine_self.
  rewrite !gtb_false by lra. rewrite !leb_true by lra.
  run_model. rewrite !haversine_self. reflexivity.
Qed.

(** Witness of C2: a boat moored on the first of two marks. *)
Lemma tracker_legs_monotone_witness :
  Course.add_own_mark_tracking moored_boat two_mark_course
  = Ok [TrackRow.mk "M1" 0 0; TrackRow.mk "M2" 0 1; TrackRow.mk "M2" 0 1] /\
  StronglySorted Z.le [0; 1; 1]%Z /\ Sorted leg_step [0; 1; 1]%Z.
Proof.
  split; [exact moored_two_marks |].
  destruct (tracker_legs_monotone moored_boat two_mark_course _ moored_two_marks)
    as (_ & Hs & Hl & _).
  split; [exact Hs | exact Hl].
Defined.

(** C1 (the code at a failing input). A boat moored on the only mark of
    a one-mark course satisfies the rounding condition of that mark at
    its second and third sample, yet the tracker keeps index 0 and the
    name of the mark in all three rows: the index 1 = len(course) and
    the name "FINISHED" are not emitted. *)
Theorem tracker_one_mark_course_not_finished :
  Course.is_mark_rounded (0, 0) (single_mark "M1" 0 0) (Some (0, 0)) = Ok true /\
  Course.add_own_mark_tracking moored_boat one_mark_course
  = Ok [TrackRow.mk "M1" 0 0; TrackRow.mk "M1" 0 0; TrackRow.mk "M1" 0 0].
Proof.
  split.
  - run_model. rewrite !haversine_self.
    rewrite gtb_false by lra. rewrite leb_true by lra. reflexivity.
  - run_model. rewrite !haversine_self. reflexivity.
Qed.

(** *** The gate-crossing example *)

Lemma haversine_a_meridian (lat1 lat2 lon : R) :
  Gps.haversine_a (lat1, lon) (lat2, lon)
  = sin ((Np.radians lat2 - Np.radians lat1) / 2) ^ 2.
Proof.
  unfold Gps.haversine_a. cbv zeta. simpl fst. simpl snd.
  replace ((Np.radians lon - Np.radians lon) / 2) with 0 by field.
  rewrite sin_0. ring.
Qed.

(** For a half-angle [x] in [0, pi/2) the angle recovered from
    [a = sin(x)^2] is [x] itself. *)
Lemma half_angle_exact (x : R) :
  0 <= x < PI / 2 ->
  Np.arctan2 (sqrt (sin x ^ 2)) (sqrt (1 - sin x ^ 2)) = x.
Proof.
  intros [H0 H1]. pose proof PI_RGT_0 as Hpi.
  assert (Hs : 0 <= sin x) by (apply sin_ge_0; lra).
  assert (Hc : 0 < cos x) by (apply cos_gt_0; lra).
  replace (1 - sin x ^ 2) with (cos x ^ 2).
  2:{ pose proof (sin2_cos2 x) as E. unfold Rsqr in E.
      replace (cos x ^ 2) with (cos x * cos x) by ring.
      replace (sin x ^ 2) with (sin x * sin x) by ring. lra. }
  rewrite !sqrt_pow2 by lra.
  unfold Np.arctan2. destruct (Rlt_dec 0 (cos x)); [| contradiction].
  change (sin x / cos x) with (tan x). apply atan_tan. lra.
Qed.

(** Along a meridian, going south by less than 180 degrees, the
    distance is the radius times the latitude difference in radians. *)
Lemma haversine_meridian (lat1 lat2 lon : R) :
  0 <= (Np.radians lat1 - Np.radians lat2) / 2 < PI / 2 ->
  Gps.haversine_distance (lat1, lon) (lat2, lon)
  = Gps.EARTH_R * (2 * ((Np.radians lat1 - Np.radians lat2) / 2)).
Proof.
  intros Hx. unfold Gps.haversine_distance. cbv zeta.
  rewrite haversine_a_meridian.
  replace ((Np.radians lat2 - Np.radians lat1) / 2)
    with (- ((Np.radians lat1 - Np.radians lat2) / 2)) by field.
  rewrite sin_neg.
  replace ((- sin ((Np.radians lat1 - Np.radians lat2) / 2)) ^ 2)
    with (sin ((Np.radians lat1 - Np.radians lat2) / 2) ^ 2) by ring.
  now rewrite half_angle_exact.
Qed.

Lemma sin_ge_99 (x : R) : 0 <= x <= 1 / 10 -> 99 / 100 * x <= sin x.
Proof.
  intros [H0 H1].
  assert (Hs : x - x ^ 3 / 6 <= sin x).
  { apply sin_lower. pose proof PI_gt_3. lra. }
  assert (Hx : x ^ 3 <= x * (1 / 100)) by nra.
  lra.
Qed.

(** The two samples of the small crossing are less than 300 m apart. *)
Lemma small_crossing_jump :
  Gps.haversine_distance (0.001, 0.0005) (-0.001, 0.0005) <= 290.
Proof.
  pose proof PI_gt_3 as H3. pose proof PI_4 as H4.
  rewrite haversine_meridian; unfold Np.radians, Gps.EARTH_R; lra.
Qed.

(** A point a thousandth of a degree north of a mark is more than
    100 m from it, whatever the longitudes. *)
Lemma thousandth_north_far (lon1 lon2 : R) :
  105 < Gps.haversine_distance (0.001, lon1) (0, lon2).
Proof.
  pose proof PI_gt_3 as H3. pose proof PI_4 as H4.
  assert (Hs : 99 / 100 * (0.001 * (PI / 180) / 2) <= sin (0.001 * (PI / 180) / 2)).
  { apply sin_ge_99. lra. }
  eapply Rlt_le_trans;
    [| apply (haversine_far_lat _ _ (99 / 100 * (0.001 * (3 / 180) / 2)));
       simpl fst; try lra].
  - unfold Gps.EARTH_R. lra.
  - unfold Np.radians.
    replace ((0 * (PI / 180) - 0.001 * (PI / 180)) / 2)
      with (- (0.001 * (PI / 180) / 2)) by field.
    rewrite sin_neg, Rabs_Ropp.
    eapply Rle_trans; [| apply Rle_abs]. lra.
Qed.

Lemma wide_jump_over_limit : 300 < Gps.haversine_distance (1, 0.5) (-1, 0.5).
Proof. pose proof two_degrees_far. lra. Qed.

Lemma wide_not_rounded :
  Course.is_mark_rounded (1, 0.5) wide_gate (Some (-1, 0.5)) = Ok false.
Proof.
  run_model. rewrite gtb_true by exact wide_jump_over_limit. reflexivity.
Qed.

Lemma wide_legs :
  tracked_legs wide_crossing [wide_gate; finish_mark] = Ok [0; 0]%Z.
Proof.
  run_model. rewrite gtb_true by exact wide_jump_over_limit. reflexivity.
Qed.

(** The cross-product test on its own sees the wide crossing. *)
Lemma wide_line_crossed :
  Course.gate_line_crossed (1, 0.5) (-1, 0.5)
    (mkMark "G1" 0 0 1 None None) (mkMark "G2" 0 1 2 None None) = true.
Proof.
  run_model. unfold Np.cross. cbn [fst snd].
  rewrite gtb_true.
  2:{ rewrite Rabs_left by lra. lra. }
  rewrite sign_pos by lra. rewrite sign_neg by lra.
  rewrite eqb_neq by lra. reflexivity.
Qed.

Lemma small_jump_within_limit :
  Gps.haversine_distance (0.001, 0.0005) (-0.001, 0.0005) <= 300.
Proof. pose proof small_crossing_jump. lra. Qed.

Lemma small_zone_missed :
  existsb (Course.in_rounding_zone (0.001, 0.0005)) (marks small_gate) = false.
Proof.
  run_model.
  rewrite leb_false by (pose proof (thousandth_north_far 0.0005 0); lra).
  rewrite leb_false by (pose proof (thousandth_north_far 0.0005 0.001); lra).
  reflexivity.
Qed.

Lemma small_line_crossed :
  Course.gate_line_crossed (0.001, 0.0005) (-0.001, 0.0005)
    (mkMark "G1" 0 0 1 None None) (mkMark "G2" 0 0.001 2 None None) = true.
Proof.
  run_model. unfold Np.cross. cbn [fst snd].
  rewrite gtb_true.
  2:{ rewrite Rabs_left by lra. lra. }
  rewrite sign_pos by lra. rewrite sign_neg by lra.
  rewrite eqb_neq by lra. reflexivity.
Qed.

(** The real-number side conditions of the small crossing, in the
    order the code meets them. *)
Ltac small_crossing_facts :=
  rewrite gtb_false by exact small_jump_within_limit;
  rewrite leb_false by (pose proof (thousandth_north_far 0.0005 0); lra);
  rewrite leb_false by (pose proof (thousandth_north_far 0.0005 0.001); lra);
  unfold Np.cross; cbn [fst snd];
  rewrite gtb_true by (rewrite Rabs_left by lra; lra);
  rewrite sign_pos by lra; rewrite sign_neg by lra;
  rewrite eqb_neq by lra.

Lemma small_rounded :
  Course.is_mark_rounded (0.001, 0.0005) small_gate (Some (-0.001, 0.0005)) = Ok true.
Proof. run_model. small_crossing_facts. reflexivity. Qed.

Lemma small_legs :
  tracked_legs small_crossing [small_gate; finish_mark] = Ok [0; 1]%Z.
Proof. run_model. small_crossing_facts. reflexivity. Qed.

(** C4 (as stated, refuted). With gate marks at (0,0) and (0,1) and the
    samples (-1,0.5) then (1,0.5), [is_mark_rounded] answers False at the
    second sample and the tracker emits leg index 0 for both samples:
    no crossing is detected and the index does not advance. *)
Lemma wide_crossing_is_rejected :
  Course.is_mark_rounded (1, 0.5) wide_gate (Some (-1, 0.5)) = Ok false /\
  tracked_legs wide_crossing [wide_gate; finish_mark] = Ok [0; 0]%Z /\
  tracked_legs wide_crossing [wide_gate; finish_mark] <> Ok [0; 1]%Z.
Proof.
  split; [exact wide_not_rounded |].
  split; [exact wide_legs |].
  rewrite wide_legs. discriminate.
Qed.

(** C4 (amended). With gate marks at (0,0) and (0,1) and the samples
    (-1,0.5) then (1,0.5) the cross-product test changes sign, but the
    two samples are more than 300 m apart, so [is_mark_rounded] answers
    False and the tracker stays on index 0.  With the same geometry a
    thousand times smaller, gate marks at (0,0) and (0,0.001) and samples
    (-0.001,0.0005) then (0.001,0.0005), the jump is within 300 m, no
    gate mark is within 100 m, the crossing is detected, and on a course
    where the gate is followed by another compound mark the tracker
    emits index 0 at the first sample and index 1 at the second. *)
Theorem gate_crossing_examples :
  (Course.gate_line_crossed (1, 0.5) (-1, 0.5)
     (mkMark "G1" 0 0 1 None None) (mkMark "G2" 0 1 2 None None) = true /\
   300 < Gps.haversine_distance (1, 0.5) (-1, 0.5) /\
   Course.is_mark_rounded (1, 0.5) wide_gate (Some (-1, 0.5)) = Ok false /\
   tracked_legs wide_crossing [wide_gate; finish_mark] = Ok [0; 0]%Z) /\
  (Gps.haversine_distance (0.001, 0.0005) (-0.001, 0.0005) <= 300 /\
   existsb (Course.in_rounding_zone (0.001, 0.0005)) (marks small_gate) = false /\
   Course.gate_line_crossed (0.001, 0.0005) (-0.001, 0.0005)
     (mkMark "G1" 0 0 1 None None) (mkMark "G2" 0 0.001 2 None None) = true /\
   Course.is_mark_rounded (0.001, 0.0005) small_gate (Some (-0.001, 0.0005))
   = Ok true /\
   tracked_legs small_crossing [small_gate; finish_mark] = Ok [0; 1]%Z).
Proof.
  split.
  - repeat split.
    + exact wide_line_crossed.
    + exact wide_jump_over_limit.
    + exact wide_not_rounded.
    + exact wide_legs.
  - repeat split.
    + exact small_jump_within_limit.
    + exact small_zone_missed.
    + exact small_line_crossed.
    + exact small_rounded.
    + exact small_legs.
Qed.

(** ** Leader selection *)

Lemma key_lt_spec (k1 k2 : Z * R) : Leader.key_lt k1 k2 = true <-> lex_lt k1 k2.
Proof.
  unfold Leader.key_lt, lex_lt.
  destruct (Z.eqb_spec (fst k1) (fst k2)) as [E | N].
  - rewrite ltb_spec. split; [intros H; right; now split |].
    intros [H | [_ H]]; [lia | exact H].
  - rewrite Z.ltb_lt. split; [intros H; now left |].
    intros [H | [H _]]; [exact H | contradiction].
Qed.

Lemma lex_lt_trans (a b c : Z * R) : lex_lt a b -> lex_lt b c -> lex_lt a c.
Proof.
  unfold lex_lt. intros [H1 | [E1 H1]] [H2 | [E2 H2]].
  - left; lia.
  - left; lia.
  - left; lia.
  - right; split; [congruence | lra].
Qed.

Lemma lex_lt_irrefl (a : Z * R) : ~ lex_lt a a.
Proof. unfold lex_lt. intros [H | [_ H]]; [lia | lra]. Qed.

(** A key not above [b] stays not above anything [b] is not above. *)
Lemma lex_not_lt_trans (a b c : Z * R) :
  ~ lex_lt b a -> ~ lex_lt c b -> ~ lex_lt c a.
Proof.
  unfold lex_lt. intros H1 H2 H3.
  destruct (Z.lt_trichotomy (fst a) (fst b)) as [Hab | [Hab | Hab]];
    destruct (Z.lt_trichotomy (fst b) (fst c)) as [Hbc | [Hbc | Hbc]];
    destruct (Rtotal_order (snd a) (snd b)) as [Rab | [Rab | Rab]];
    destruct (Rtotal_order (snd b) (snd c)) as [Rbc | [Rbc | Rbc]];
    try (apply H1; (left; lia) || (right; split; [lia | lra]));
    try (apply H2; (left; lia) || (right; split; [lia | lra]));
    destruct H3 as [H3 | [E3 H3]]; try lia; try lra.
Qed.

(** [py_min] returns an item of the sequence whose key no item's key is
    below. *)
Lemma py_min_spec {A : Type} (key : A -> Z * R) (rest : list A) :
  forall first : A,
    In (Leader.py_min key first rest) (first :: rest) /\
    forall x, In x (first :: rest) ->
              ~ lex_lt (key x) (key (Leader.py_min key first rest)).
Proof.
  unfold Leader.py_min.
  induction rest as [| y rest IH]; intros first; simpl fold_left.
  - split; [now left |]. intros x [<- | []]. apply lex_lt_irrefl.
  - destruct (Leader.key_lt (key y) (key first)) eqn:E.
    + apply key_lt_spec in E.
      destruct (IH y) as (Hin & Hmin). split.
      * destruct Hin as [<- | Hin]; [right; now left | right; now right].
      * intros x [<- | [<- | Hx]].
        -- eapply lex_not_lt_trans; [apply Hmin; now left |].
           intros H. eapply lex_lt_irrefl, lex_lt_trans; eassumption.
        -- apply Hmin. now left.
        -- apply Hmin. now right.
    + assert (N : ~ lex_lt (key y) (key first)).
      { intros H. apply key_lt_spec in H. congruence. }
      destruct (IH first) as (Hin & Hmin). split.
      * destruct Hin as [<- | Hin]; [now left | right; now right].
      * intros x [<- | [<- | Hx]].
        -- apply Hmin. now left.
        -- eapply lex_not_lt_trans; [apply Hmin; now left | exact N].
        -- apply Hmin. now right.
Qed.

(** C5. On a non-empty set of candidates [determine_leader] returns a
    boat whose key (-mark index, distance to next mark) no candidate's
    key is below: every other candidate has a lower mark index, or the
    same mark index and a distance at least as large. *)
Theorem determine_leader_minimises_key (boat_positions : Leader.BoatPositions) :
  boat_positions <> [] ->
  exists (bid : string) (info : Leader.BoatInfo),
    Leader.determine_leader boat_positions = Some bid /\
    In (bid, info) boat_positions /\
    (forall item, In item boat_positions ->
       Leader.key_lt (Leader.leader_key item) (Leader.leader_key (bid, info)) = false) /\
    (forall bid' info', In (bid', info') boat_positions ->
       (Leader.mark_idx info' < Leader.mark_idx info)%Z \/
       (Leader.mark_idx info' = Leader.mark_idx info /\
        Leader.dist_to_mark info <= Leader.dist_to_mark info')).
Proof.
  intros Hne. destruct boat_positions as [| item rest]; [congruence |].
  destruct (py_min_spec Leader.leader_key rest item) as (Hin & Hmin).
  destruct (Leader.py_min Leader.leader_key item rest) as [bid info] eqn:E.
  exists bid, info. unfold Leader.determine_leader. rewrite E.
  split; [reflexivity |]. split; [exact Hin |]. split.
  - intros x Hx. specialize (Hmin x Hx).
    destruct (Leader.key_lt _ _) eqn:K; [| reflexivity].
    apply key_lt_spec in K. contradiction.
  - intros bid' info' Hx. specialize (Hmin _ Hx).
    unfold lex_lt, Leader.leader_key in Hmin. simpl in Hmin.
    destruct (Z.lt_trichotomy (Leader.mark_idx info') (Leader.mark_idx info))
      as [Hlt | [Heq | Hgt]].
    + now left.
    + right. split; [exact Heq |].
      destruct (Rle_dec (Leader.dist_to_mark info) (Leader.dist_to_mark info'))
        as [Hle | Hnle]; [exact Hle |].
      exfalso. apply Hmin. right. split; [lia | lra].
    + exfalso. apply Hmin. left. lia.
Qed.

(** Witness of C5: at equal mark index 2 the boat at 10 m is selected,
    not the boat at 50 m. *)
Lemma determine_leader_minimises_key_witness :
  two_boats <> [] /\ Leader.determine_leader two_boats = Some "B"%string.
Proof.
  assert (Hne : two_boats <> []) by discriminate.
  split; [exact Hne |].
  destruct (determine_leader_minimises_key two_boats Hne)
    as (bid & info & Hsel & Hin & _ & Hbest).
  rewrite Hsel. f_equal.
  destruct Hin as [E | [E | []]].
  - injection E as <- <-.
    destruct (Hbest "B"%string (Leader.mkInfo (0, 0) 2 10)) as [H | [_ H]].
    + right. now left.
    + simpl in H. lia.
    + simpl in H. lra.
  - now injection E as <- <-.
Defined.

(** ** Distance to leader *)

(** [searchsorted] stops at the first element not below the value. *)
Lemma searchsorted_spec (a : list Z) (value : Z) :
  (Dtl.searchsorted a value <= List.length a)%nat /\
  (forall j x, (j < Dtl.searchsorted a value)%nat ->
               nth_error a j = Some x -> (x < value)%Z) /\
  (forall x, nth_error a (Dtl.searchsorted a value) = Some x -> (value <= x)%Z).
Proof.
  induction a as [| y rest (IHlen & IHlt & IHge)]; simpl.
  - split; [lia |]. split; [intros j x Hj; lia |].
    intros x H. discriminate.
  - destruct (Z.ltb_spec y value) as [Hlt | Hge].
    + split; [lia |]. split.
      * intros [| j] x Hj Hx; simpl in Hx.
        -- now injection Hx as <-.
        -- apply (IHlt j); [lia | exact Hx].
      * intros x Hx. simpl in Hx. now apply IHge.
    + split; [lia |]. split; [intros j x Hj; lia |].
      intros x Hx. simpl in Hx. injection Hx as <-. exact Hge.
Qed.

Lemma searchsorted_all_below (a : list Z) (value : Z) :
  (forall x, In x a -> (x < value)%Z) ->
  Dtl.searchsorted a value = List.length a.
Proof.
  induction a as [| y rest IH]; intros H; simpl; [reflexivity |].
  destruct (Z.ltb_spec y value) as [_ | Hge].
  - f_equal. apply IH. intros x Hx. apply H. now right.
  - specialize (H y (or_introl eq_refl)). lia.
Qed.

(** What [find_leader_row] returns: the record at the position
    [searchsorted] gives. *)
Lemma find_leader_row_some (leader_data : list LeaderRow.t) (row : GpsRow.t)
    (leader_row : LeaderRow.t) :
  Dtl.find_leader_row leader_data row = Some leader_row ->
  nth_error leader_data
    (Dtl.searchsorted (map LeaderRow.DATETIME leader_data) (GpsRow.DATETIME row))
  = Some leader_row.
Proof.
  unfold Dtl.find_leader_row. intros H.
  destruct (List.length leader_data <=? _)%nat; [discriminate | exact H].
Qed.

Lemma find_leader_row_after (leader_data : list LeaderRow.t) (row : GpsRow.t) :
  after_leader_stream leader_data row ->
  Dtl.find_leader_row leader_data row = None.
Proof.
  intros H. unfold Dtl.find_leader_row.
  rewrite searchsorted_all_below.
  - rewrite length_map, Nat.leb_refl. reflexivity.
  - intros x Hx. apply in_map_iff in Hx. destruct Hx as (l & <- & Hl).
    now apply H.
Qed.

Lemma strongly_sorted_nth (l : list Z) :
  StronglySorted Z.le l ->
  forall i j x y, (i <= j)%nat -> nth_error l i = Some x -> nth_error l j = Some y ->
                  (x <= y)%Z.
Proof.
  induction 1 as [| a l Hs IH Hall]; intros i j x y Hij Hx Hy.
  - destruct i; discriminate.
  - destruct i as [| i], j as [| j]; simpl in Hx, Hy; try lia.
    + injection Hx as <-. injection Hy as <-. lia.
    + injection Hx as <-. rewrite Forall_forall in Hall.
      apply Hall. eapply nth_error_In; eassumption.
    + eapply (IH i j); try eassumption. lia.
Qed.

(** C6 (amended). On a leader stream sorted by timestamp, the leader
    record a sample is matched with is the first record whose timestamp
    is at or after the sample's: its timestamp is not earlier than the
    sample's, every record before it is strictly earlier than the
    sample, and no record at or after the sample's time is earlier than
    it.  The matched record is never an earlier one. *)
Theorem leader_match_is_first_at_or_after (leader_data : list LeaderRow.t)
    (row : GpsRow.t) (leader_row : LeaderRow.t) :
  leader_sorted leader_data ->
  Dtl.find_leader_row leader_data row = Some leader_row ->
  (GpsRow.DATETIME row <= LeaderRow.DATETIME leader_row)%Z /\
  (exists i, nth_error leader_data i = Some leader_row /\
             forall j l, (j < i)%nat -> nth_error leader_data j = Some l ->
                         (LeaderRow.DATETIME l < GpsRow.DATETIME row)%Z) /\
  (forall l, In l leader_data ->
             (GpsRow.DATETIME row <= LeaderRow.DATETIME l)%Z ->
             (LeaderRow.DATETIME leader_row <= LeaderRow.DATETIME l)%Z).
Proof.
  intros Hsorted Hfind. apply find_leader_row_some in Hfind.
  set (ts := map LeaderRow.DATETIME leader_data) in *.
  set (i := Dtl.searchsorted ts (GpsRow.DATETIME row)) in *.
  destruct (searchsorted_spec ts (GpsRow.DATETIME row)) as (_ & Hlt & Hge).
  fold i in Hlt, Hge.
  assert (Hts : nth_error ts i = Some (LeaderRow.DATETIME leader_row)).
  { unfold ts. rewrite nth_error_map, Hfind. reflexivity. }
  split; [now apply Hge |]. split.
  - exists i. split; [exact Hfind |]. intros j l Hj Hl.
    apply (Hlt j); [exact Hj |]. unfold ts. rewrite nth_error_map, Hl. reflexivity.
  - intros l Hin Hl. apply In_nth_error in Hin. destruct Hin as (j & Hj).
    assert (Htj : nth_error ts j = Some (LeaderRow.DATETIME l)).
    { unfold ts. rewrite nth_error_map, Hj. reflexivity. }
    destruct (Nat.lt_ge_cases j i) as [Hji | Hij].
    + specialize (Hlt j _ Hji Htj). lia.
    + eapply (strongly_sorted_nth ts Hsorted i j); eassumption.
Qed.

Lemma leaders_10_20_sorted : leader_sorted leaders_10_20.
Proof.
  unfold leader_sorted, leaders_10_20. simpl.
  repeat constructor. simpl. lia.
Qed.

Lemma sample_15_matches_20 :
  Dtl.find_leader_row leaders_10_20 (sample_at 15) = Some leader20.
Proof. reflexivity. Qed.

(** Witness of C6 (amended): a sample at time 15 against records at
    times 10 and 20. *)
Lemma leader_match_is_first_at_or_after_witness :
  leader_sorted leaders_10_20 /\
  Dtl.find_leader_row leaders_10_20 (sample_at 15) = Some leader20 /\
  (GpsRow.DATETIME (sample_at 15) <= LeaderRow.DATETIME leader20)%Z.
Proof.
  split; [exact leaders_10_20_sorted |].
  split; [exact sample_15_matches_20 |].
  exact (proj1 (leader_match_is_first_at_or_after leaders_10_20 (sample_at 15)
                  leader20 leaders_10_20_sorted sample_15_matches_20)).
Defined.

(** C6 (as stated, refuted). The leader stream is sorted and has a record
    at time 10, before the sample at time 15, yet the sample is matched
    with the record at time 20, a later one, and the row returned is
    computed from that record (legs behind 1, the leg of the record at
    time 20, not 0). *)
Lemma leader_match_can_be_later :
  leader_sorted leaders_10_20 /\
  In leader10 leaders_10_20 /\
  (LeaderRow.DATETIME leader10 <= GpsRow.DATETIME (sample_at 15))%Z /\
  Dtl.find_leader_row leaders_10_20 (sample_at 15) = Some leader20 /\
  (GpsRow.DATETIME (sample_at 15) < LeaderRow.DATETIME leader20)%Z /\
  Dtl.calculate_dtl [sample_at 15] leaders_10_20 one_mark_course
  = Ok [DtlRow.mk 15 0 0 1].
Proof.
  split; [exact leaders_10_20_sorted |].
  split; [now left |].
  split; [simpl; lia |].
  split; [exact sample_15_matches_20 |].
  split; [simpl; lia |].
  run_model. rewrite !haversine_self, Rplus_0_l. reflexivity.
Qed.

(** C7. When the sample's timestamp equals the matched leader record's
    and the direct distance to the leader position is below 1 m, the
    record [calculate_dtl] emits for the sample has DTL_INDIRECT 0 and
    LEG_BEHIND 0, whatever the leg numbers of the two rows. *)
Theorem dtl_same_instant_zero (leader_data : list LeaderRow.t)
    (course : list CompoundMark) (row : GpsRow.t) (leader_row : LeaderRow.t)
    (d : DtlRow.t) :
  Dtl.find_leader_row leader_data row = Some leader_row ->
  GpsRow.DATETIME row = LeaderRow.DATETIME leader_row ->
  Gps.haversine_distance
    (GpsRow.LATITUDE_GPS row, GpsRow.LONGITUDE_GPS row)
    (LeaderRow.LEADER_LAT leader_row, LeaderRow.LEADER_LON leader_row) < 1 ->
  Dtl.dtl_row leader_data course row = Ok (Some d) ->
  DtlRow.DTL_INDIRECT d = 0 /\ DtlRow.LEG_BEHIND d = 0%Z.
Proof.
  intros Hfind Hts Hnear Hrow.
  unfold Dtl.dtl_row in Hrow. rewrite Hfind in Hrow.
  apply bind_ok in Hrow. destruct Hrow as (r & Hr & Hrow).
  injection Hrow as <-.
  unfold Dtl.dtl_record in Hr.
  apply bind_ok in Hr. destruct Hr as (cm & _ & Hr).
  apply bind_ok in Hr. destruct Hr as (next_mark & _ & Hr).
  cbv zeta in Hr.
  rewrite (ltb_true _ _ Hnear), Hts, Z.eqb_refl in Hr. simpl in Hr.
  injection Hr as <-. split; reflexivity.
Qed.

Lemma sample_10_record :
  Dtl.dtl_row [leader_ahead] far_mark_course (sample_at 10)
  = Ok (Some (DtlRow.mk 10 0 0 0)).
Proof.
  run_model. rewrite !haversine_self.
  rewrite ltb_true by lra. reflexivity.
Qed.

(** Witness of C7: the leader record is on leg 3, the sample on leg 0 at
    the same place and time. *)
Lemma dtl_same_instant_zero_witness :
  Dtl.dtl_row [leader_ahead] far_mark_course (sample_at 10)
  = Ok (Some (DtlRow.mk 10 0 0 0)) /\
  DtlRow.DTL_INDIRECT (DtlRow.mk 10 0 0 0) = 0 /\
  DtlRow.LEG_BEHIND (DtlRow.mk 10 0 0 0) = 0%Z.
Proof.
  split; [exact sample_10_record |].
  apply (dtl_same_instant_zero [leader_ahead] far_mark_course (sample_at 10)
           leader_ahead).
  - reflexivity.
  - reflexivity.
  - simpl. rewrite haversine_self. lra.
  - exact sample_10_record.
Defined.

Lemma bind_ret {A : Type} (m : result (list A)) : (rs <- m ;; Ok rs) = m.
Proof. destruct m; reflexivity. Qed.

Lemma calculate_dtl_length (leader_data : list LeaderRow.t)
    (course : list CompoundMark) (position_data : list GpsRow.t) :
  forall out, Dtl.calculate_dtl position_data leader_data course = Ok out ->
              (List.length out <= List.length position_data)%nat.
Proof.
  induction position_data as [| row rest IH]; intros out H; simpl in H.
  - injection H as <-. simpl. lia.
  - apply bind_ok in H. destruct H as (r & _ & H).
    apply bind_ok in H. destruct H as (rs & Hrs & H).
    injection H as <-. specialize (IH _ Hrs).
    destruct r; simpl; lia.
Qed.

(** On a sorted stream, being later than the last record is being later
    than every record. *)
Lemma after_last_record (leader_data : list LeaderRow.t) (row : GpsRow.t)
    (d : LeaderRow.t) :
  leader_sorted leader_data -> leader_data <> [] ->
  (LeaderRow.DATETIME (last leader_data d) < GpsRow.DATETIME row)%Z ->
  after_leader_stream leader_data row.
Proof.
  unfold leader_sorted, after_leader_stream.
  induction leader_data as [| a rest IH]; intros Hs Hne Hlast l Hin;
    [congruence |].
  simpl map in Hs. inversion Hs as [| ? ? Hs' Hall]; subst.
  destruct rest as [| b rest'].
  - destruct Hin as [<- | []]. exact Hlast.
  - change (last (a :: b :: rest') d) with (last (b :: rest') d) in Hlast.
    assert (Hb : forall l', In l' (b :: rest') ->
                 (LeaderRow.DATETIME l' < GpsRow.DATETIME row)%Z).
    { apply IH; [exact Hs' | discriminate | exact Hlast]. }
    destruct Hin as [<- | Hin]; [| now apply Hb].
    rewrite Forall_forall in Hall.
    specialize (Hall (LeaderRow.DATETIME b) (or_introl eq_refl)).
    specialize (Hb b (or_introl eq_refl)). lia.
Qed.

(** C10. A sample later than every record of the leader stream is
    skipped by the bound check on [searchsorted]: its iteration appends
    nothing, the frame returned for the sample followed by other samples
    is the frame returned for the other samples alone, and so has fewer
    rows than the input. *)
Theorem dtl_skips_samples_after_leader_stream (leader_data : list LeaderRow.t)
    (course : list CompoundMark) (row : GpsRow.t) :
  after_leader_stream leader_data row ->
  Dtl.searchsorted (map LeaderRow.DATETIME leader_data) (GpsRow.DATETIME row)
  = List.length leader_data /\
  Dtl.dtl_row leader_data course row = Ok None /\
  (forall rest : list GpsRow.t,
     Dtl.calculate_dtl (row :: rest) leader_data course
     = Dtl.calculate_dtl rest leader_data course) /\
  (forall (rest : list GpsRow.t) (out : list DtlRow.t),
     Dtl.calculate_dtl (row :: rest) leader_data course = Ok out ->
     (List.length out < List.length (row :: rest))%nat).
Proof.
  intros Hafter.
  assert (Hrow : Dtl.dtl_row leader_data course row = Ok None).
  { unfold Dtl.dtl_row. now rewrite find_leader_row_after. }
  assert (Hskip : forall rest, Dtl.calculate_dtl (row :: rest) leader_data course
                               = Dtl.calculate_dtl rest leader_data course).
  { intros rest. simpl. rewrite Hrow. simpl. apply bind_ret. }
  split; [| split; [exact Hrow | split; [exact Hskip |]]].
  - rewrite searchsorted_all_below; [apply length_map |].
    intros x Hx. apply in_map_iff in Hx. destruct Hx as (l & <- & Hl).
    now apply Hafter.
  - intros rest out H. rewrite Hskip in H.
    apply calculate_dtl_length in H. simpl. lia.
Qed.

Lemma sample_25_after : after_leader_stream leaders_10_20 (sample_at 25).
Proof.
  intros l [<- | [<- | []]]; simpl; lia.
Qed.

(** Witness of C10: records at times 10 and 20, samples at times 25 and
    10; only the sample at time 10 gives a row. *)
Lemma dtl_skips_samples_after_leader_stream_witness :
  after_leader_stream leaders_10_20 (sample_at 25) /\
  Dtl.dtl_row leaders_10_20 one_mark_course (sample_at 25) = Ok None /\
  Dtl.calculate_dtl [sample_at 25; sample_at 10] leaders_10_20 one_mark_course
  = Dtl.calculate_dtl [sample_at 10] leaders_10_20 one_mark_course.
Proof.
  split; [exact sample_25_after |].
  destruct (dtl_skips_samples_after_leader_stream leaders_10_20 one_mark_course
              (sample_at 25) sample_25_after) as (_ & Hrow & Hskip & _).
  split; [exact Hrow | exact (Hskip [sample_at 10])].
Defined.

(** ** VMC *)

Lemma radians_opp (d : R) : Np.radians (- d) = - Np.radians d.
Proof. unfold Np.radians. ring. Qed.

(** The cosine [calculate_vmc] takes is the cosine of the difference of
    heading and bearing. *)
Lemma calculate_vmc_cos (boat_speed boat_heading course_bearing : R) :
  Bearing.calculate_vmc boat_speed boat_heading course_bearing
  = boat_speed * cos (Np.radians (boat_heading - course_bearing)).
Proof.
  unfold Bearing.calculate_vmc, Bearing.vmc_angle. cbv zeta. f_equal.
  set (d := boat_heading - course_bearing).
  assert (Habs : cos (Np.radians (Rabs d)) = cos (Np.radians d)).
  { unfold Rabs. destruct (Rcase_abs d); [| reflexivity].
    now rewrite radians_opp, cos_neg. }
  unfold Np.gtb, Np.ltb. destruct (Rlt_dec 180 (Rabs d)); [| exact Habs].
  replace (Np.radians (360 - Rabs d)) with (- Np.radians (Rabs d) + 2 * INR 1 * PI)
    by (unfold Np.radians; simpl INR; field).
  now rewrite cos_period, cos_neg.
Qed.

(** For a heading and a bearing at most 360 degrees apart the angle is
    reduced into [0, 180]. *)
Lemma vmc_angle_range (boat_heading course_bearing : R) :
  Rabs (boat_heading - course_bearing) <= 360 ->
  0 <= Bearing.vmc_angle boat_heading course_bearing <= 180.
Proof.
  intros H. unfold Bearing.vmc_angle. cbv zeta.
  pose proof (Rabs_pos (boat_heading - course_bearing)).
  unfold Np.gtb, Np.ltb. destruct (Rlt_dec 180 _); lra.
Qed.

(** A heading in [0, 360) and an azimuth in [-180, 180] are less than
    540 degrees apart: the cosine is then that of an angle in [0, 180],
    the reduced angle or its opposite. *)
Lemma calculate_vmc_reduced (boat_speed boat_heading course_bearing : R) :
  Rabs (boat_heading - course_bearing) <= 540 ->
  exists theta : R,
    0 <= theta <= 180 /\
    (theta = Bearing.vmc_angle boat_heading course_bearing \/
     theta = - Bearing.vmc_angle boat_heading course_bearing) /\
    Bearing.calculate_vmc boat_speed boat_heading course_bearing
    = boat_speed * cos (Np.radians theta).
Proof.
  intros H. unfold Bearing.calculate_vmc. cbv zeta.
  destruct (Rle_dec (Rabs (boat_heading - course_bearing)) 360) as [Hle | Hgt].
  - exists (Bearing.vmc_angle boat_heading course_bearing).
    split; [now apply vmc_angle_range |]. split; [now left | reflexivity].
  - exists (- Bearing.vmc_angle boat_heading course_bearing).
    split; [| split; [now right | now rewrite radians_opp, cos_neg]].
    unfold Bearing.vmc_angle. cbv zeta.
    unfold Np.gtb, Np.ltb. destruct (Rlt_dec 180 _); lra.
Qed.

(** A row on leg 7 reports 0. *)
Lemma track_vmc_leg_seven (calculate_bearing : R -> R -> R -> R -> R)
    (course : list CompoundMark) (row : GpsRow.t) :
  GpsRow.CURRENT_LEG_NUM row = 7%Z ->
  Course.track_vmc_row calculate_bearing course row = Ok 0.
Proof. intros H. unfold Course.track_vmc_row. now rewrite H. Qed.

(** C8 (the code at failing inputs). The finished state is recognised
    by the constant 7, not by the length of the course.  On a course of
    one compound mark a sample in the finished state (leg 1) makes
    [calculate_track_vmc] raise [IndexError] instead of reporting 0; on a
    course of eight compound marks a sample on leg 7, which is not
    finished, reports 0. *)
Theorem track_vmc_finished_is_leg_seven (calculate_bearing : R -> R -> R -> R -> R) :
  Course.len_course one_mark_course = 1%Z /\
  Course.calculate_track_vmc calculate_bearing [sample_on_leg 1] one_mark_course
  = Raise IndexError /\
  Course.len_course eight_mark_course = 8%Z /\
  Course.calculate_track_vmc calculate_bearing [sample_on_leg 7] eight_mark_course
  = Ok [0].
Proof. repeat split. Qed.

(** * Further properties of the modelled code *)

(** ** GPS jump filter and distance *)

Lemma arctan2_le_half_pi (x y : R) : 0 <= x -> 0 <= y -> Np.arctan2 y x <= PI / 2.
Proof.
  intros Hx Hy. pose proof PI_RGT_0 as Hpi. unfold Np.arctan2.
  destruct (Rlt_dec 0 x).
  - pose proof (atan_bound (y / x)). lra.
  - destruct (Rlt_dec x 0); [lra |].
    destruct (Rlt_dec 0 y); [lra |].
    destruct (Rlt_dec y 0); lra.
Qed.

Lemma haversine_nonneg (p q : point) : 0 <= Gps.haversine_distance p q.
Proof.
  unfold Gps.haversine_distance. cbv zeta.
  set (a := Gps.haversine_a p q).
  pose proof (arctan2_nonneg (sqrt (1 - a)) (sqrt a) (sqrt_pos _) (sqrt_pos _)).
  unfold Gps.EARTH_R. nra.
Qed.

(** X1. [haversine_distance] is never negative and never more than half
    the circumference of the sphere, pi times the radius. *)
Theorem haversine_distance_bounds (p q : point) :
  0 <= Gps.haversine_distance p q <= Gps.EARTH_R * PI.
Proof.
  split; [apply haversine_nonneg |].
  unfold Gps.haversine_distance. cbv zeta.
  set (a := Gps.haversine_a p q).
  pose proof (arctan2_le_half_pi (sqrt (1 - a)) (sqrt a) (sqrt_pos _) (sqrt_pos _)).
  unfold Gps.EARTH_R. nra.
Qed.

Lemma filter_fold_unfold (max_jump : R) (rest : list point) :
  forall (filtered : list point) (last_kept : point),
    fold_left (Gps.filter_step max_jump) rest (filtered ++ [last_kept])
    = filtered ++ last_kept :: kept_after max_jump last_kept rest.
Proof.
  induction rest as [| p rest IH]; intros filtered last_kept; simpl.
  - reflexivity.
  - unfold Gps.filter_step at 2. rewrite last_last.
    destruct (Np.leb _ _).
    + rewrite (IH (filtered ++ [last_kept]) p), <- app_assoc. reflexivity.
    + apply IH.
Qed.

(** The loop of [filter_gps_jumps] in recursive form. *)
Lemma filter_gps_jumps_unfold (max_jump : R) (p0 : point) (rest : list point) :
  Gps.filter_gps_jumps (p0 :: rest) max_jump = p0 :: kept_after max_jump p0 rest.
Proof.
  destruct rest as [| p rest]; [reflexivity |].
  unfold Gps.filter_gps_jumps. apply (filter_fold_unfold max_jump (p :: rest) [] p0).
Qed.

Lemma kept_after_subseq (max_jump : R) (rest : list point) :
  forall last_kept, subseq (kept_after max_jump last_kept rest) rest.
Proof.
  induction rest as [| p rest IH]; intros last_kept; simpl.
  - constructor.
  - destruct (Np.leb _ _); constructor; apply IH.
Qed.

(** X2. [filter_gps_jumps] keeps the first point and returns the input
    with some points left out: nothing is added or reordered, and a
    non-empty input gives a non-empty output that starts with the same
    point. *)
Theorem filter_gps_jumps_subseq (points : list point) (max_jump_meters : R) :
  subseq (Gps.filter_gps_jumps points max_jump_meters) points /\
  hd_error (Gps.filter_gps_jumps points max_jump_meters) = hd_error points /\
  (List.length (Gps.filter_gps_jumps points max_jump_meters) <= List.length points)%nat.
Proof.
  assert (Hlen : forall (A : Type) (l1 l2 : list A),
             subseq l1 l2 -> (List.length l1 <= List.length l2)%nat).
  { induction 1; simpl; lia. }
  destruct points as [| p0 rest].
  - simpl. repeat split; [constructor | lia].
  - rewrite filter_gps_jumps_unfold.
    assert (Hs : subseq (p0 :: kept_after max_jump_meters p0 rest) (p0 :: rest))
      by (constructor; apply kept_after_subseq).
    split; [exact Hs |]. split; [reflexivity |]. exact (Hlen _ _ _ Hs).
Qed.

Lemma leb_spec (x y : R) : Np.leb x y = true <-> x <= y.
Proof.
  unfold Np.leb. destruct (Rle_dec x y); split; intros; try assumption;
    try reflexivity; try discriminate; contradiction.
Qed.

Lemma kept_after_chain (max_jump : R) (rest : list point) :
  forall last_kept,
    Sorted (within max_jump) (last_kept :: kept_after max_jump last_kept rest).
Proof.
  induction rest as [| p rest IH]; intros last_kept; simpl.
  - repeat constructor.
  - destruct (Np.leb _ _) eqn:E.
    + constructor; [apply IH |]. constructor. now apply leb_spec.
    + apply IH.
Qed.

(** X3. In the output of [filter_gps_jumps] every point is at most
    [max_jump_meters] from the point kept before it. *)
Theorem filter_gps_jumps_chain (points : list point) (max_jump_meters : R) :
  Sorted (within max_jump_meters) (Gps.filter_gps_jumps points max_jump_meters).
Proof.
  destruct points as [| p0 rest]; [constructor |].
  rewrite filter_gps_jumps_unfold. apply kept_after_chain.
Qed.

Lemma kept_after_idem (max_jump : R) (rest : list point) :
  forall last_kept,
    kept_after max_jump last_kept (kept_after max_jump last_kept rest)
    = kept_after max_jump last_kept rest.
Proof.
  induction rest as [| p rest IH]; intros last_kept; simpl; [reflexivity |].
  destruct (Np.leb _ _) eqn:E.
  - simpl. rewrite E. f_equal. apply IH.
  - apply IH.
Qed.

(** X4. Filtering a filtered track changes nothing. *)
Theorem filter_gps_jumps_idempotent (points : list point) (max_jump_meters : R) :
  Gps.filter_gps_jumps (Gps.filter_gps_jumps points max_jump_meters) max_jump_meters
  = Gps.filter_gps_jumps points max_jump_meters.
Proof.
  destruct points as [| p0 rest]; [reflexivity |].
  rewrite !filter_gps_jumps_unfold. f_equal. apply kept_after_idem.
Qed.

(** X5. A track whose consecutive points are all within
    [max_jump_meters] of each other is returned unchanged. *)
Theorem filter_gps_jumps_clean_track (points : list point) (max_jump_meters : R) :
  Sorted (within max_jump_meters) points ->
  Gps.filter_gps_jumps points max_jump_meters = points.
Proof.
  intros Hs. destruct points as [| p0 rest]; [reflexivity |].
  rewrite filter_gps_jumps_unfold. f_equal.
  revert p0 Hs. induction rest as [| p rest IH]; intros p0 Hs; simpl; [reflexivity |].
  inversion Hs as [| ? ? Hs' Hhd]; subst. inversion Hhd as [| ? ? Hw]; subst.
  unfold within in Hw. rewrite (leb_true _ _ Hw). f_equal. now apply IH.
Qed.

(** Witness of X5: a boat that does not move. *)
Lemma filter_gps_jumps_clean_track_witness :
  Gps.filter_gps_jumps [(0, 0); (0, 0); (0, 0)] 100 = [(0, 0); (0, 0); (0, 0)].
Proof.
  apply filter_gps_jumps_clean_track.
  assert (H : within 100 (0, 0) (0, 0)).
  { unfold within. rewrite haversine_self. lra. }
  apply Sorted_cons; [apply Sorted_cons; [apply Sorted_cons |] |].
  - apply Sorted_nil.
  - apply HdRel_nil.
  - apply HdRel_cons. exact H.
  - apply HdRel_cons. exact H.
Defined.

(** ** Mark rounding and the tracker, further *)

Lemma is_mark_rounded_jump (cur prev : point) (cm : CompoundMark) :
  Course.MAX_POSITION_JUMP < Gps.haversine_distance cur prev ->
  Course.is_mark_rounded cur cm (Some prev) = Ok false.
Proof.
  intros H. unfold Course.is_mark_rounded, Course.position_jumped.
  now rewrite (gtb_true _ _ H).
Qed.

(** X6. A sample more than 300 m from the previous one never counts as a
    rounding: [is_mark_rounded] answers False for every compound mark,
    even one without marks, and the step of the tracker for that sample
    writes the index it had before. *)
Theorem jump_sample_keeps_index (cur prev : point) :
  Course.MAX_POSITION_JUMP < Gps.haversine_distance cur prev ->
  (forall cm : CompoundMark, Course.is_mark_rounded cur cm (Some prev) = Ok false) /\
  (forall (course : list CompoundMark) (idx : Z) (t : Z)
          (r : TrackRow.t * Course.ProgressState),
      Course.track_step course (Course.mkState idx (Some prev))
        (BoatRow.mk t (fst cur) (snd cur)) = Ok r ->
      TrackRow.CURRENT_LEG_NUM (fst r) = idx /\
      Course.current_mark_idx (snd r) = idx).
Proof.
  intros Hjump. split; [intros cm; now apply is_mark_rounded_jump |].
  intros course idx t r H.
  destruct (track_step_leg _ _ _ _ H) as (_ & Hidx & _). rewrite Hidx.
  unfold Course.track_step in H.
  apply bind_ok in H. destruct H as (idx' & Hadv & H).
  apply bind_ok in H. destruct H as (o & Ho & H). inv_ok H. simpl.
  apply next_mark_info_leg in Ho. rewrite Ho.
  unfold Course.advance in Hadv. simpl in Hadv.
  destruct (idx <? Course.len_course course - 1)%Z.
  - apply bind_ok in Hadv. destruct Hadv as (cm & _ & Hadv).
    replace (fst cur, snd cur) with cur in Hadv by (destruct cur; reflexivity).
    rewrite (is_mark_rounded_jump _ _ cm Hjump) in Hadv. simpl in Hadv.
    inv_ok Hadv. split; reflexivity.
  - inv_ok Hadv. split; reflexivity.
Qed.

(** Witness of X6: the two samples of the wide crossing. *)
Lemma jump_sample_keeps_index_witness :
  Course.MAX_POSITION_JUMP < Gps.haversine_distance (1, 0.5) (-1, 0.5) /\
  Course.is_mark_rounded (1, 0.5) empty_compound (Some (-1, 0.5)) = Ok false.
Proof.
  split; [exact wide_jump_over_limit |].
  exact (proj1 (jump_sample_keeps_index (1, 0.5) (-1, 0.5) wide_jump_over_limit)
           empty_compound).
Defined.

Lemma advance_first_sample (course : list CompoundMark) (idx : Z) (p : point) :
  Course.advance course (Course.mkState idx None) p = Ok idx.
Proof. reflexivity. Qed.

(** Along the loop the index at row [i] is at most the entry index plus
    [i + 1], and plus [i] when the loop is entered without a previous
    position. *)
Lemma track_loop_leg_bound (course : list CompoundMark) (rows : list BoatRow.t) :
  forall (st : Course.ProgressState) (out : list TrackRow.t) (i : nat) (a : Z),
    Course.track_loop course st rows = Ok out ->
    nth_error (leg_nums out) i = Some a ->
    (Course.current_mark_idx st <= a <= Course.current_mark_idx st + Z.of_nat i + 1)%Z /\
    (Course.prev_pos st = None -> (a <= Course.current_mark_idx st + Z.of_nat i)%Z).
Proof.
  induction rows as [| row rest IH]; intros st out i a H Hn; simpl in H.
  - inv_ok H. destruct i; discriminate.
  - apply bind_ok in H. destruct H as (r & Hr & H).
    apply bind_ok in H. destruct H as (outs & Houts & H). inv_ok H.
    destruct (track_step_leg _ _ _ _ Hr) as (Hstep & Hidx & Hprev).
    unfold leg_step in Hstep.
    assert (Hfirst : Course.prev_pos st = None ->
                     TrackRow.CURRENT_LEG_NUM (fst r) = Course.current_mark_idx st).
    { intros Hnone. unfold Course.track_step in Hr.
      apply bind_ok in Hr. destruct Hr as (idx & Hadv & Hr).
      apply bind_ok in Hr. destruct Hr as (o & Ho & Hr). inv_ok Hr. simpl.
      apply next_mark_info_leg in Ho. rewrite Ho.
      unfold Course.advance in Hadv. rewrite Hnone in Hadv. now inv_ok Hadv. }
    destruct i as [| i]; simpl in Hn.
    + injection Hn as <-. split; [lia |]. intros Hnone. rewrite (Hfirst Hnone). lia.
    + destruct (IH _ _ _ _ Houts Hn) as (Hb & _). rewrite Hidx in Hb.
      split; [lia |]. intros Hnone. rewrite (Hfirst Hnone) in Hb. lia.
Qed.

(** X7. The index written for the sample number [i] (from 0) is between
    0 and [i], so the first sample always gets index 0, and on a
    non-empty course it is below the length of the course. *)
Theorem tracker_leg_bounds (boat_data : list BoatRow.t) (course : list CompoundMark)
    (out : list TrackRow.t) (i : nat) (a : Z) :
  Course.add_own_mark_tracking boat_data course = Ok out ->
  nth_error (leg_nums out) i = Some a ->
  (0 <= a <= Z.of_nat i)%Z /\
  (course <> [] -> (a < Course.len_course course)%Z).
Proof.
  intros H Hn. split.
  - destruct (track_loop_leg_bound _ _ _ _ _ _ H Hn) as (Hb & Hnone).
    simpl in Hb, Hnone. specialize (Hnone eq_refl). lia.
  - intros Hne. pose proof (tracker_never_finished _ _ _ Hne H) as Hall.
    rewrite Forall_forall in Hall. unfold leg_nums in Hn.
    rewrite nth_error_map in Hn.
    destruct (nth_error out i) as [r |] eqn:E; [| discriminate].
    injection Hn as <-. apply Hall. eapply nth_error_In; eassumption.
Qed.

(** Witness of X7: the second sample of the moored boat. *)
Lemma tracker_leg_bounds_witness :
  (0 <= 1 <= Z.of_nat 1)%Z /\
  (two_mark_course <> [] -> (1 < Course.len_course two_mark_course)%Z).
Proof.
  exact (tracker_leg_bounds moored_boat two_mark_course _ 1%nat 1%Z
           moored_two_marks eq_refl).
Defined.

(** X8. On an empty course the tracker writes "FINISHED", distance 0 and
    index 0 for every sample. *)
Theorem tracker_empty_course (boat_data : list BoatRow.t) :
  Course.add_own_mark_tracking boat_data [] = Ok (map (fun _ => finished_row) boat_data).
Proof.
  unfold Course.add_own_mark_tracking.
  assert (H : forall rows prev,
             Course.track_loop [] (Course.mkState 0 prev) rows
             = Ok (map (fun _ => finished_row) rows)).
  { induction rows as [| row rest IH]; intros prev; [reflexivity |].
    simpl Course.track_loop. unfold Course.track_step.
    assert (Hadv : forall p, Course.advance [] (Course.mkState 0 prev) p = Ok 0%Z).
    { intros p. unfold Course.advance. destruct prev; reflexivity. }
    rewrite Hadv. simpl. rewrite IH. reflexivity. }
  apply H.
Qed.

Lemma has_marks_two_mark_course : has_marks two_mark_course.
Proof. repeat constructor; discriminate. Qed.

(** X9. On a course whose compound marks all have at least one mark the
    tracker raises no exception, whatever the stream, and returns one
    row per sample. *)
Theorem tracker_returns_on_marked_course (boat_data : list BoatRow.t)
    (course : list CompoundMark) :
  has_marks course ->
  exists out : list TrackRow.t,
    Course.add_own_mark_tracking boat_data course = Ok out /\
    List.length out = List.length boat_data.
Proof.
  intros Hm. destruct (tracker_total course boat_data Hm) as (out & H).
  exists out. split; [exact H |].
  exact (proj1 (track_loop_steps _ _ _ _ H)).
Qed.

(** Witness of X9. *)
Lemma tracker_returns_on_marked_course_witness :
  has_marks two_mark_course /\
  exists out : list TrackRow.t,
    Course.add_own_mark_tracking moored_boat two_mark_course = Ok out /\
    List.length out = List.length moored_boat.
Proof.
  split; [exact has_marks_two_mark_course |].
  exact (tracker_returns_on_marked_course moored_boat two_mark_course
           has_marks_two_mark_course).
Defined.

Lemma py_index_head {A : Type} (x : A) (l : list A) : py_index (x :: l) 0 = Ok x.
Proof.
  unfold py_index. cbv zeta. simpl (0 <? 0)%Z. cbv iota.
  destruct (Z.ltb_spec 0 (Z.of_nat (List.length (x :: l)))) as [_ | H];
    [reflexivity | simpl List.length in H; lia].
Qed.

(** X10. When the first compound mark of the course has no marks, the
    tracker raises [IndexError] on the first sample of any stream. *)
Theorem tracker_raises_on_unmarked_start (row : BoatRow.t) (rows : list BoatRow.t)
    (cm : CompoundMark) (rest : list CompoundMark) :
  marks cm = [] ->
  Course.add_own_mark_tracking (row :: rows) (cm :: rest) = Raise IndexError.
Proof.
  intros Hm. unfold Course.add_own_mark_tracking. simpl Course.track_loop.
  unfold Course.track_step. rewrite advance_first_sample. simpl bind.
  unfold Course.next_mark_info.
  replace (Course.len_course (cm :: rest) <=? 0)%Z with false
    by (symmetry; apply Z.leb_gt; unfold Course.len_course; simpl List.length; lia).
  rewrite py_index_head. simpl bind. rewrite Hm. reflexivity.
Qed.

(** Witness of X10. *)
Lemma tracker_raises_on_unmarked_start_witness :
  Course.add_own_mark_tracking moored_boat [empty_compound] = Raise IndexError.
Proof.
  exact (tracker_raises_on_unmarked_start (boat_at 0 0 0)
           [boat_at 1 0 0; boat_at 2 0 0] empty_compound [] eq_refl).
Defined.

Lemma track_loop_app (course : list CompoundMark) (rows1 rows2 : list BoatRow.t) :
  forall (st : Course.ProgressState) (out : list TrackRow.t),
    Course.track_loop course st (rows1 ++ rows2) = Ok out ->
    exists out1 out2,
      Course.track_loop course st rows1 = Ok out1 /\ out = out1 ++ out2 /\
      List.length out1 = List.length rows1.
Proof.
  induction rows1 as [| row rest IH]; intros st out H.
  - exists [], out. repeat split.
  - simpl in H. apply bind_ok in H. destruct H as (r & Hr & H).
    apply bind_ok in H. destruct H as (outs & Houts & H). inv_ok H.
    destruct (IH _ _ Houts) as (o1 & o2 & H1 & -> & Hlen).
    exists (fst r :: o1), o2. simpl. rewrite Hr. simpl. rewrite H1. simpl.
    repeat split. now rewrite Hlen.
Qed.

(** X11. The tracker looks at no later sample: the rows it writes for a
    stream are the first rows it writes for any longer stream that
    starts with it. *)
Theorem tracker_prefix (rows1 rows2 : list BoatRow.t) (course : list CompoundMark)
    (out : list TrackRow.t) :
  Course.add_own_mark_tracking (rows1 ++ rows2) course = Ok out ->
  Course.add_own_mark_tracking rows1 course = Ok (firstn (List.length rows1) out).
Proof.
  unfold Course.add_own_mark_tracking. intros H.
  destruct (track_loop_app _ _ _ _ _ H) as (o1 & o2 & H1 & -> & Hlen).
  rewrite H1, <- Hlen, firstn_app, Nat.sub_diag, firstn_all. simpl.
  now rewrite app_nil_r.
Qed.

(** Witness of X11: the first two samples of the moored boat. *)
Lemma tracker_prefix_witness :
  Course.add_own_mark_tracking [boat_at 0 0 0; boat_at 1 0 0] two_mark_course
  = Ok [TrackRow.mk "M1" 0 0; TrackRow.mk "M2" 0 1].
Proof.
  exact (tracker_prefix [boat_at 0 0 0; boat_at 1 0 0] [boat_at 2 0 0]
           two_mark_course _ moored_two_marks).
Defined.

Lemma eqb_sym (x y : R) : Np.eqb x y = Np.eqb y x.
Proof.
  unfold Np.eqb. destruct (Req_dec_T x y), (Req_dec_T y x); congruence.
Qed.

(** X12. The line test of the gate branch looks at the infinite line
    through the two gate marks, not at the segment between them: moving
    both boat positions by any multiple of the gate vector leaves the
    answer unchanged.  The answer is also the same when the two
    positions are exchanged, and it is False for a boat that did not
    move. *)
Theorem gate_line_test_geometry (cur prev : point) (m0 m1 : Mark) (t : R) :
  Course.gate_line_crossed (shift_along t m0 m1 cur) (shift_along t m0 m1 prev) m0 m1
  = Course.gate_line_crossed cur prev m0 m1 /\
  Course.gate_line_crossed prev cur m0 m1 = Course.gate_line_crossed cur prev m0 m1 /\
  Course.gate_line_crossed cur cur m0 m1 = false.
Proof.
  destruct cur as [cx cy], prev as [px py].
  unfold Course.gate_line_crossed, shift_along, Np.cross. cbn [fst snd].
  set (gx := mark_lat m1 - mark_lat m0). set (gy := mark_lon m1 - mark_lon m0).
  split; [| split].
  - replace (gx * (cy + t * gy - (py + t * gy)) - gy * (cx + t * gx - (px + t * gx)))
      with (gx * (cy - py) - gy * (cx - px)) by ring.
    replace (gx * (py + t * gy - mark_lon m0) - gy * (px + t * gx - mark_lat m0))
      with (gx * (py - mark_lon m0) - gy * (px - mark_lat m0)) by ring.
    replace (gx * (cy + t * gy - mark_lon m0) - gy * (cx + t * gx - mark_lat m0))
      with (gx * (cy - mark_lon m0) - gy * (cx - mark_lat m0)) by ring.
    reflexivity.
  - replace (gx * (py - cy) - gy * (px - cx))
      with (- (gx * (cy - py) - gy * (cx - px))) by ring.
    rewrite Rabs_Ropp.
    rewrite (eqb_sym (Np.sign (gx * (cy - mark_lon m0) - gy * (cx - mark_lat m0)))).
    reflexivity.
  - replace (gx * (cy - cy) - gy * (cx - cx)) with 0 by ring.
    rewrite Rabs_R0. rewrite gtb_false by lra. reflexivity.
Qed.

(** ** VMC, further *)

Lemma calculate_vmc_abs_le (boat_speed boat_heading course_bearing : R) :
  Rabs (Bearing.calculate_vmc boat_speed boat_heading course_bearing) <= Rabs boat_speed.
Proof.
  rewrite calculate_vmc_cos, Rabs_mult.
  pose proof (COS_bound (Np.radians (boat_heading - course_bearing))) as [Hl Hu].
  assert (Hc : Rabs (cos (Np.radians (boat_heading - course_bearing))) <= 1)
    by (apply Rabs_le; lra).
  pose proof (Rabs_pos boat_speed). nra.
Qed.

(** X13. The VMC is never larger in size than the boat speed; it is the
    boat speed itself when the heading is the bearing; exchanging
    heading and bearing, or adding a full turn to the heading, does not
    change it. *)
Theorem calculate_vmc_properties (boat_speed boat_heading course_bearing : R) :
  Rabs (Bearing.calculate_vmc boat_speed boat_heading course_bearing) <= Rabs boat_speed /\
  Bearing.calculate_vmc boat_speed boat_heading boat_heading = boat_speed /\
  Bearing.calculate_vmc boat_speed course_bearing boat_heading
  = Bearing.calculate_vmc boat_speed boat_heading course_bearing /\
  Bearing.calculate_vmc boat_speed (boat_heading + 360) course_bearing
  = Bearing.calculate_vmc boat_speed boat_heading course_bearing.
Proof.
  split; [apply calculate_vmc_abs_le |].
  rewrite !calculate_vmc_cos. split; [| split].
  - replace (boat_heading - boat_heading) with 0 by ring.
    unfold Np.radians. rewrite Rmult_0_l, cos_0. ring.
  - replace (course_bearing - boat_heading) with (- (boat_heading - course_bearing))
      by ring.
    now rewrite radians_opp, cos_neg.
  - replace (Np.radians (boat_heading + 360 - course_bearing))
      with (Np.radians (boat_heading - course_bearing) + 2 * INR 1 * PI)
      by (unfold Np.radians; simpl INR; field).
    now rewrite cos_period.
Qed.

Lemma mapM_ok {A B : Type} (f : A -> result B) (l : list A) :
  forall out, mapM f l = Ok out -> Forall2 (fun x y => f x = Ok y) l out.
Proof.
  induction l as [| x rest IH]; intros out H; simpl in H.
  - inv_ok H. constructor.
  - apply bind_ok in H. destruct H as (y & Hy & H).
    apply bind_ok in H. destruct H as (ys & Hys & H). inv_ok H.
    constructor; [exact Hy | now apply IH].
Qed.

(** X14. When [calculate_track_vmc] returns, it has one value per row
    and no value is larger in size than the speed of its row. *)
Theorem track_vmc_within_speed (calculate_bearing : R -> R -> R -> R -> R)
    (boat_data : list GpsRow.t) (course : list CompoundMark) (out : list R) :
  Course.calculate_track_vmc calculate_bearing boat_data course = Ok out ->
  List.length out = List.length boat_data /\
  Forall2 (fun row vmc => Rabs vmc <= Rabs (GpsRow.SPEED row)) boat_data out.
Proof.
  unfold Course.calculate_track_vmc. intros H. apply mapM_ok in H.
  split; [symmetry; eapply Forall2_length; eassumption |].
  induction H as [| row v rows vs Hv _ IH]; constructor; [| exact IH].
  unfold Course.track_vmc_row in Hv.
  destruct (GpsRow.CURRENT_LEG_NUM row =? 7)%Z.
  - inv_ok Hv. rewrite Rabs_R0. apply Rabs_pos.
  - apply bind_ok in Hv. destruct Hv as (cm & _ & Hv).
    apply bind_ok in Hv. destruct Hv as (m & _ & Hv). inv_ok Hv.
    apply calculate_vmc_abs_le.
Qed.

(** Witness of X14: a row on leg 0 of the one-mark course. *)
Lemma track_vmc_within_speed_witness :
  List.length [Bearing.calculate_vmc 5 90 0] = List.length [sample_on_leg 0] /\
  Forall2 (fun row vmc => Rabs vmc <= Rabs (GpsRow.SPEED row))
    [sample_on_leg 0] [Bearing.calculate_vmc 5 90 0].
Proof.
  exact (track_vmc_within_speed north_bearing [sample_on_leg 0] one_mark_course
           [Bearing.calculate_vmc 5 90 0] eq_refl).
Defined.

(** ** Distance to leader, further *)

Lemma py_index_outside {A : Type} (l : list A) (i : Z) :
  (Z.of_nat (List.length l) <= i \/ i < - Z.of_nat (List.length l))%Z ->
  py_index l i = Raise IndexError.
Proof.
  intros H. unfold py_index. cbv zeta.
  destruct (Z.ltb_spec i 0) as [Hneg | Hpos].
  - destruct (Z.leb_spec 0 (Z.of_nat (List.length l) + i)) as [H0 | H0];
      [| reflexivity].
    destruct H as [H | H]; lia.
  - destruct (Z.leb_spec 0 i) as [_ | H0]; [| lia].
    destruct (Z.ltb_spec i (Z.of_nat (List.length l))) as [Hlt | _];
      [| reflexivity].
    destruct H as [H | H]; lia.
Qed.

(** X15. [calculate_dtl] has no finished state: when some sample that is
    matched with a leader record has a leg number that is not an index
    of the course (the course length or more, or below minus the
    length), the whole call raises [IndexError]. *)
Theorem dtl_raises_outside_course (position_data : list GpsRow.t)
    (leader_data : list LeaderRow.t) (course : list CompoundMark)
    (row : GpsRow.t) (leader_row : LeaderRow.t) :
  In row position_data ->
  Dtl.find_leader_row leader_data row = Some leader_row ->
  (Course.len_course course <= GpsRow.CURRENT_LEG_NUM row \/
   GpsRow.CURRENT_LEG_NUM row < - Course.len_course course)%Z ->
  Dtl.calculate_dtl position_data leader_data course = Raise IndexError.
Proof.
  intros Hin Hfind Hleg.
  assert (Hrow : Dtl.dtl_row leader_data course row = Raise IndexError).
  { unfold Dtl.dtl_row. rewrite Hfind. unfold Dtl.dtl_record.
    rewrite py_index_outside by exact Hleg. reflexivity. }
  induction position_data as [| r rest IH]; [destruct Hin |].
  simpl. destruct Hin as [-> | Hin].
  - rewrite Hrow. reflexivity.
  - destruct (Dtl.dtl_row leader_data course r) as [o | []]; [| reflexivity].
    simpl. rewrite (IH Hin). reflexivity.
Qed.

(** Witness of X15: a sample on leg 1 of a one-mark course. *)
Lemma dtl_raises_outside_course_witness :
  Dtl.calculate_dtl [sample_at 10; finished_sample] leaders_10_20 one_mark_course
  = Raise IndexError.
Proof.
  apply (dtl_raises_outside_course _ _ _ finished_sample leader20).
  - right. now left.
  - reflexivity.
  - left. vm_compute. discriminate.
Defined.

Lemma dtl_record_nonneg (course : list CompoundMark) (row : GpsRow.t)
    (leader_row : LeaderRow.t) (d : DtlRow.t) :
  Dtl.dtl_record course row leader_row = Ok d ->
  DtlRow.DATETIME d = GpsRow.DATETIME row /\
  0 <= DtlRow.DTL_DIRECT d /\ 0 <= DtlRow.DTL_INDIRECT d.
Proof.
  unfold Dtl.dtl_record. intros H.
  apply bind_ok in H. destruct H as (cm & _ & H).
  apply bind_ok in H. destruct H as (m & _ & H). cbv zeta in H. inv_ok H. simpl.
  split; [reflexivity |]. split; [apply haversine_nonneg |].
  destruct (_ && _)%bool; [lra |].
  destruct (_ =? _)%Z; [apply haversine_nonneg |].
  pose proof (haversine_nonneg
                (GpsRow.LATITUDE_GPS row, GpsRow.LONGITUDE_GPS row) (mark_pos m)).
  pose proof (haversine_nonneg
                (LeaderRow.LEADER_LAT leader_row, LeaderRow.LEADER_LON leader_row)
                (mark_pos m)).
  lra.
Qed.

(** ** Leader stream *)

Lemma insert_ts_in (t x : Z) (l : list Z) :
  In x (LeaderStream.insert_ts t l) <-> x = t \/ In x l.
Proof.
  induction l as [| y rest IH]; simpl.
  - intuition.
  - destruct (Z.ltb_spec t y) as [Hlt | Hge].
    + simpl. intuition.
    + destruct (Z.eqb_spec t y) as [-> | Hne].
      * simpl. intuition.
      * simpl. rewrite IH. intuition.
Qed.

Lemma insert_ts_sorted (t : Z) (l : list Z) :
  StronglySorted Z.lt l -> StronglySorted Z.lt (LeaderStream.insert_ts t l).
Proof.
  induction 1 as [| y rest Hs IH Hall]; simpl.
  - repeat constructor.
  - destruct (Z.ltb_spec t y) as [Hlt | Hge].
    + constructor; [now constructor |].
      constructor; [exact Hlt |].
      rewrite Forall_forall in *. intros z Hz. specialize (Hall z Hz). lia.
    + destruct (Z.eqb_spec t y) as [-> | Hne]; [now constructor |].
      constructor; [exact IH |].
      rewrite Forall_forall in *. intros z Hz. apply insert_ts_in in Hz.
      destruct Hz as [-> | Hz]; [lia | now apply Hall].
Qed.

Lemma fold_insert_ts (ts : list Z) :
  forall acc : list Z,
    StronglySorted Z.lt acc ->
    StronglySorted Z.lt (fold_left (fun a t => LeaderStream.insert_ts t a) ts acc) /\
    forall x, In x (fold_left (fun a t => LeaderStream.insert_ts t a) ts acc)
              <-> In x ts \/ In x acc.
Proof.
  induction ts as [| t rest IH]; intros acc Hacc; simpl.
  - split; [exact Hacc | intuition].
  - destruct (IH _ (insert_ts_sorted t acc Hacc)) as (Hs & Hin).
    split; [exact Hs |]. intros x. rewrite Hin, insert_ts_in. intuition.
Qed.

Lemma aligned_timestamps_spec (all_boat_data : LeaderStream.AllBoatData) :
  StronglySorted Z.lt (LeaderStream.get_aligned_timestamps all_boat_data) /\
  forall t, In t (LeaderStream.get_aligned_timestamps all_boat_data)
            <-> has_sample_at all_boat_data t.
Proof.
  unfold LeaderStream.get_aligned_timestamps.
  destruct (fold_insert_ts
              (flat_map (fun item => map GpsRow.DATETIME (snd item)) all_boat_data)
              [] (SSorted_nil _)) as (Hs & Hin).
  split; [exact Hs |]. intros t. rewrite Hin. unfold has_sample_at. split.
  - intros [H | []]. apply in_flat_map in H. destruct H as (item & Hitem & H).
    apply in_map_iff in H. destruct H as (row & Hrow & Hr). eauto.
  - intros (item & row & Hitem & Hrow & Ht). left.
    apply in_flat_map. exists item. split; [exact Hitem |].
    apply in_map_iff. eauto.
Qed.

(** X16. [get_aligned_timestamps] returns the timestamps in strictly
    increasing order, each once, and a timestamp is returned exactly
    when some boat has a row with it. *)
Theorem aligned_timestamps_sorted_union (all_boat_data : LeaderStream.AllBoatData) :
  StronglySorted Z.lt (LeaderStream.get_aligned_timestamps all_boat_data) /\
  NoDup (LeaderStream.get_aligned_timestamps all_boat_data) /\
  forall t, In t (LeaderStream.get_aligned_timestamps all_boat_data)
            <-> has_sample_at all_boat_data t.
Proof.
  destruct (aligned_timestamps_spec all_boat_data) as (Hs & Hin).
  split; [exact Hs |]. split; [| exact Hin].
  clear Hin. induction Hs as [| t l Hs IH Hall]; constructor; [| exact IH].
  intros Hin. rewrite Forall_forall in Hall. specialize (Hall t Hin). lia.
Qed.

Lemma obind_return {A B : Type} (m : outcome A) (k : A -> outcome B) (b : B) :
  obind m k = Return b -> exists a, m = Return a /\ k a = Return b.
Proof. destruct m as [a | e]; simpl; intros H; [eauto | discriminate]. Qed.

Lemma lift_return {A : Type} (r : result A) (a : A) :
  lift r = Return a -> r = Ok a.
Proof. destruct r as [x | []]; simpl; intros H; [now injection H as -> | discriminate]. Qed.

Lemma leader_at_datetime (all_boat_data : LeaderStream.AllBoatData)
    (course : list CompoundMark) (t : Z) (e : LeaderRow.t) :
  LeaderStream.leader_at all_boat_data course t = Return (Some e) ->
  LeaderRow.DATETIME e = t.
Proof.
  unfold LeaderStream.leader_at. intros H.
  apply obind_return in H. destruct H as (bp & _ & H).
  destruct bp as [| item rest]; [discriminate |].
  destruct (Leader.determine_leader (item :: rest)) as [lid |]; [| discriminate].
  destruct (String.eqb lid ""); [discriminate |].
  apply obind_return in H. destruct H as (info & _ & H).
  injection H as <-. reflexivity.
Qed.

Lemma leader_loop_subseq (all_boat_data : LeaderStream.AllBoatData)
    (course : list CompoundMark) (timestamps : list Z) :
  forall entries,
    LeaderStream.leader_loop all_boat_data course timestamps = Return entries ->
    subseq (map LeaderRow.DATETIME entries) timestamps.
Proof.
  induction timestamps as [| t rest IH]; intros entries H; simpl in H.
  - injection H as <-. constructor.
  - apply obind_return in H. destruct H as (entry & He & H).
    apply obind_return in H. destruct H as (es & Hes & H). injection H as <-.
    destruct entry as [e |].
    + simpl. rewrite (leader_at_datetime _ _ _ _ He). apply subseq_keep. now apply IH.
    + apply subseq_skip. now apply IH.
Qed.

Lemma subseq_in {A : Type} (l1 l2 : list A) :
  subseq l1 l2 -> forall x, In x l1 -> In x l2.
Proof.
  induction 1 as [| y l1 l2 _ IH | y l1 l2 _ IH]; intros x Hx.
  - exact Hx.
  - right. now apply IH.
  - destruct Hx as [-> | Hx]; [now left | right; now apply IH].
Qed.

Lemma subseq_strongly_sorted (l1 l2 : list Z) :
  subseq l1 l2 -> StronglySorted Z.lt l2 -> StronglySorted Z.lt l1.
Proof.
  induction 1 as [| y l1 l2 Hsub IH | y l1 l2 Hsub IH]; intros Hs.
  - constructor.
  - inversion Hs; subst. now apply IH.
  - inversion Hs as [| ? ? Hs' Hall]; subst. constructor; [now apply IH |].
    rewrite Forall_forall in *. intros x Hx. apply Hall.
    eapply subseq_in; eassumption.
Qed.

Lemma strongly_sorted_lt_le (l : list Z) :
  StronglySorted Z.lt l -> StronglySorted Z.le l.
Proof.
  induction 1 as [| y l Hs IH Hall]; constructor; [exact IH |].
  rewrite Forall_forall in *. intros x Hx. specialize (Hall x Hx). lia.
Qed.

Lemma identify_leader_sorted (all_boat_data : LeaderStream.AllBoatData)
    (course : list CompoundMark) (leader_data : list LeaderRow.t) :
  LeaderStream.identify_leader all_boat_data course = Return leader_data ->
  StronglySorted Z.lt (map LeaderRow.DATETIME leader_data) /\
  forall l, In l leader_data -> has_sample_at all_boat_data (LeaderRow.DATETIME l).
Proof.
  unfold LeaderStream.identify_leader. intros H.
  apply leader_loop_subseq in H.
  destruct (aligned_timestamps_spec all_boat_data) as (Hs & Hin).
  split; [eapply subseq_strongly_sorted; eassumption |].
  intros l Hl. apply Hin. eapply subseq_in; [exact H |]. now apply in_map.
Qed.

Lemma two_boat_leaders :
  LeaderStream.identify_leader two_boat_fleet one_mark_course
  = Return [LeaderRow.mk 10 "A" 0 0 0; LeaderRow.mk 20 "A" 0 0 0;
            LeaderRow.mk 30 "B" 0 0.01 0].
Proof.
  run_model.
  rewrite ltb_false.
  2:{ rewrite haversine_self. apply haversine_nonneg. }
  reflexivity.
Qed.

(** X17. The leader stream [identify_leader] returns has strictly
    increasing timestamps, so it is sorted as [calculate_dtl] expects
    and has at most one record per timestamp, and every record carries a
    timestamp at which some boat has a row. *)
Theorem identify_leader_stream_sorted (all_boat_data : LeaderStream.AllBoatData)
    (course : list CompoundMark) (leader_data : list LeaderRow.t) :
  LeaderStream.identify_leader all_boat_data course = Return leader_data ->
  StronglySorted Z.lt (map LeaderRow.DATETIME leader_data) /\
  leader_sorted leader_data /\
  forall l, In l leader_data -> has_sample_at all_boat_data (LeaderRow.DATETIME l).
Proof.
  intros H. destruct (identify_leader_sorted _ _ _ H) as (Hs & Hin).
  split; [exact Hs |]. split; [| exact Hin].
  unfold leader_sorted. now apply strongly_sorted_lt_le.
Qed.

(** Witness of X17: the fleet of two boats. *)
Lemma identify_leader_stream_sorted_witness :
  StronglySorted Z.lt [10; 20; 30]%Z.
Proof.
  exact (proj1 (identify_leader_stream_sorted two_boat_fleet one_mark_course _
                  two_boat_leaders)).
Defined.

Lemma find_datetime (boat_data : list GpsRow.t) (t : Z) (row : GpsRow.t) :
  LeaderStream.position_data_at_timestamp boat_data t = Some row ->
  In row boat_data /\ GpsRow.DATETIME row = t.
Proof.
  unfold LeaderStream.position_data_at_timestamp. intros H.
  apply find_some in H. destruct H as (Hin & Ht).
  split; [exact Hin | now apply Z.eqb_eq].
Qed.

Lemma find_datetime_exists (boat_data : list GpsRow.t) (row : GpsRow.t) :
  In row boat_data ->
  exists first, LeaderStream.position_data_at_timestamp boat_data (GpsRow.DATETIME row)
                = Some first.
Proof.
  unfold LeaderStream.position_data_at_timestamp. intros Hin.
  destruct (find _ boat_data) as [r |] eqn:E; [eauto |].
  exfalso. pose proof (find_none _ _ E row Hin) as H. simpl in H.
  rewrite Z.eqb_refl in H. discriminate.
Qed.

(** What [get_positions_at_timestamp] returns: an item for each boat
    with a row at the timestamp, in the order of the fleet, built from
    the first such row of the boat. *)
Lemma positions_spec (t : Z) (course : list CompoundMark)
    (all_boat_data : LeaderStream.AllBoatData) :
  forall bp,
    LeaderStream.get_positions_at_timestamp t all_boat_data course = Ok bp ->
    subseq (map fst bp) (map fst all_boat_data) /\
    (forall bid info, In (bid, info) bp ->
       exists boat_data row,
         In (bid, boat_data) all_boat_data /\
         LeaderStream.position_data_at_timestamp boat_data t = Some row /\
         info_of_row course row info) /\
    (forall bid boat_data row,
       In (bid, boat_data) all_boat_data ->
       LeaderStream.position_data_at_timestamp boat_data t = Some row ->
       exists info, In (bid, info) bp /\ info_of_row course row info).
Proof.
  induction all_boat_data as [| [boat_id boat_data] rest IH]; intros bp H; simpl in H.
  - inv_ok H. split; [constructor |]. split; [intros ? ? [] | intros ? ? ? []].
  - destruct (LeaderStream.position_data_at_timestamp boat_data t) as [data |] eqn:E.
    + apply bind_ok in H. destruct H as (cm & Hcm & H).
      apply bind_ok in H. destruct H as (m & Hm & H). cbv zeta in H.
      apply bind_ok in H. destruct H as (others & Ho & H). inv_ok H.
      destruct (IH _ Ho) as (Hsub & Hfrom & Hto).
      assert (Hinfo : info_of_row course data
                (Leader.mkInfo (GpsRow.LATITUDE_GPS data, GpsRow.LONGITUDE_GPS data)
                   (GpsRow.CURRENT_LEG_NUM data)
                   (Gps.haversine_distance
                      (GpsRow.LATITUDE_GPS data, GpsRow.LONGITUDE_GPS data)
                      (mark_pos m)))).
      { unfold info_of_row. simpl. repeat split. exists cm, m. now repeat split. }
      split; [simpl; now apply subseq_keep |]. split.
      * intros bid info [Heq | Hin].
        -- injection Heq as <- <-. exists boat_data, data.
           split; [now left |]. split; [exact E | exact Hinfo].
        -- destruct (Hfrom _ _ Hin) as (bd & row & Hbd & Hrow & Hi).
           exists bd, row. split; [now right |]. now split.
      * intros bid bd row [Heq | Hin] Hrow.
        -- injection Heq as <- <-. rewrite E in Hrow. injection Hrow as <-.
           eexists. split; [now left | exact Hinfo].
        -- destruct (Hto _ _ _ Hin Hrow) as (info & Hi & Hinfo').
           exists info. split; [now right | exact Hinfo'].
    + destruct (IH _ H) as (Hsub & Hfrom & Hto).
      split; [simpl; now apply subseq_skip |]. split.
      * intros bid info Hin.
        destruct (Hfrom _ _ Hin) as (bd & row & Hbd & Hrow & Hi).
        exists bd, row. split; [now right |]. now split.
      * intros bid bd row [Heq | Hin] Hrow.
        -- injection Heq as <- <-. rewrite E in Hrow. discriminate.
        -- now apply (Hto _ _ _ Hin Hrow).
Qed.

Lemma subseq_nodup {A : Type} (l1 l2 : list A) :
  subseq l1 l2 -> NoDup l2 -> NoDup l1.
Proof.
  induction 1 as [| y l1 l2 Hsub IH | y l1 l2 Hsub IH]; intros Hnd.
  - constructor.
  - inversion Hnd; subst. now apply IH.
  - inversion Hnd as [| ? ? Hnotin Hnd']; subst. constructor; [| now apply IH].
    intros Hin. apply Hnotin. eapply subseq_in; eassumption.
Qed.

Lemma nodup_fst_inj {A B : Type} (l : list (A * B)) (k : A) (v1 v2 : B) :
  NoDup (map fst l) -> In (k, v1) l -> In (k, v2) l -> v1 = v2.
Proof.
  induction l as [| [k' v'] rest IH]; intros Hnd H1 H2; [destruct H1 |].
  simpl in Hnd. inversion Hnd as [| ? ? Hnotin Hnd']; subst.
  destruct H1 as [E1 | H1], H2 as [E2 | H2].
  - congruence.
  - injection E1 as -> ->. exfalso. apply Hnotin.
    apply in_map_iff. now exists (k, v2).
  - injection E2 as -> ->. exfalso. apply Hnotin.
    apply in_map_iff. now exists (k, v1).
  - now apply IH.
Qed.

Lemma dict_get_return (bp : Leader.BoatPositions) (key : string)
    (info : Leader.BoatInfo) :
  LeaderStream.dict_get bp key = Return info -> In (key, info) bp.
Proof.
  induction bp as [| [k v] rest IH]; simpl; intros H; [discriminate |].
  destruct (String.eqb_spec k key) as [-> | Hne].
  - injection H as ->. now left.
  - right. now apply IH.
Qed.

(** What an entry of the leader stream is made of. *)
Lemma leader_at_spec (all_boat_data : LeaderStream.AllBoatData)
    (course : list CompoundMark) (t : Z) (e : LeaderRow.t) :
  NoDup (map fst all_boat_data) ->
  LeaderStream.leader_at all_boat_data course t = Return (Some e) ->
  LeaderRow.DATETIME e = t /\ LeaderRow.LEADER_ID e <> ""%string /\
  exists boat_data row,
    In (LeaderRow.LEADER_ID e, boat_data) all_boat_data /\
    LeaderStream.position_data_at_timestamp boat_data t = Some row /\
    record_of_row e row /\
    (exists cm m, py_index course (GpsRow.CURRENT_LEG_NUM row) = Ok cm /\
                  py_index (marks cm) 0 = Ok m) /\
    (forall bid' boat_data' row',
        In (bid', boat_data') all_boat_data ->
        LeaderStream.position_data_at_timestamp boat_data' t = Some row' ->
        (GpsRow.CURRENT_LEG_NUM row' <= GpsRow.CURRENT_LEG_NUM row)%Z).
Proof.
  intros Hnd H. unfold LeaderStream.leader_at in H.
  apply obind_return in H. destruct H as (bp & Hbp & H).
  apply lift_return in Hbp.
  destruct (positions_spec _ _ _ _ Hbp) as (Hsub & Hfrom & Hto).
  assert (Hnd' : NoDup (map fst bp)) by (eapply subseq_nodup; eassumption).
  destruct bp as [| item rest]; [discriminate |].
  set (bp := item :: rest) in *.
  destruct (py_min_spec Leader.leader_key rest item) as (Hin & Hmin).
  unfold Leader.determine_leader in H. fold bp in Hin, Hmin.
  change (match bp with [] => None
          | i :: r => Some (fst (Leader.py_min Leader.leader_key i r)) end)
    with (Some (fst (Leader.py_min Leader.leader_key item rest))) in H.
  cbv iota beta in H.
  destruct (Leader.py_min Leader.leader_key item rest) as [lid info0] eqn:Emin.
  simpl fst in H.
  destruct (String.eqb_spec lid "") as [Hempty | Hne]; [discriminate |].
  apply obind_return in H. destruct H as (info & Hget & H). injection H as <-.
  apply dict_get_return in Hget.
  assert (info = info0) by (eapply nodup_fst_inj; eassumption). subst info0.
  destruct (Hfrom _ _ Hget) as (bd & row & Hbd & Hrow & Hpos & Hidx & cm & m & Hcm & Hm & _).
  simpl. split; [reflexivity |]. split; [exact Hne |].
  exists bd, row. split; [exact Hbd |]. split; [exact Hrow |]. split.
  - unfold record_of_row, LeaderStream.create_leader_entry. simpl.
    rewrite Hpos, Hidx. now repeat split.
  - split; [now exists cm, m |].
    intros bid' bd' row' Hin' Hrow'.
    destruct (Hto _ _ _ Hin' Hrow') as (info' & Hi' & _ & Hidx' & _).
    specialize (Hmin _ Hi'). unfold lex_lt, Leader.leader_key in Hmin. simpl in Hmin.
    rewrite <- Hidx, <- Hidx'.
    destruct (Z.le_gt_cases (Leader.mark_idx info') (Leader.mark_idx info))
      as [Hle | Hgt]; [exact Hle |].
    exfalso. apply Hmin. left. lia.
Qed.

Lemma leader_loop_in (all_boat_data : LeaderStream.AllBoatData)
    (course : list CompoundMark) (timestamps : list Z) :
  forall entries,
    LeaderStream.leader_loop all_boat_data course timestamps = Return entries ->
    (forall e, In e entries ->
       exists t, In t timestamps /\
                 LeaderStream.leader_at all_boat_data course t = Return (Some e)) /\
    (forall t, In t timestamps ->
       exists entry, LeaderStream.leader_at all_boat_data course t = Return entry /\
                     forall e, entry = Some e -> In e entries).
Proof.
  induction timestamps as [| t rest IH]; intros entries H; simpl in H.
  - injection H as <-. split; [intros ? [] | intros ? []].
  - apply obind_return in H. destruct H as (entry & He & H).
    apply obind_return in H. destruct H as (es & Hes & H). injection H as <-.
    destruct (IH _ Hes) as (Hfrom & Hto). split.
    + intros e Hin.
      assert (Hcase : entry = Some e \/ In e es).
      { destruct entry as [e0 |]; [| now right].
        destruct Hin as [-> | Hin]; [now left | now right]. }
      destruct Hcase as [-> | Hin'].
      * exists t. split; [now left | exact He].
      * destruct (Hfrom _ Hin') as (t' & Ht' & He'). exists t'. split; [now right | exact He'].
    + intros t' [<- | Ht'].
      * exists entry. split; [exact He |]. intros e ->. now left.
      * destruct (Hto _ Ht') as (entry' & He' & Hin'). exists entry'.
        split; [exact He' |]. intros e Hs. specialize (Hin' e Hs).
        destruct entry; [now right | exact Hin'].
Qed.

(** X18. With distinct boat ids, every record of the leader stream names
    a boat of the fleet, with a non-empty id, that has a row at the
    record's timestamp; the record carries the position and the leg of
    the first such row of that boat, and no boat with a row at that
    timestamp is on a higher leg. *)
Theorem leader_record_is_best_boat (all_boat_data : LeaderStream.AllBoatData)
    (course : list CompoundMark) (leader_data : list LeaderRow.t) (l : LeaderRow.t) :
  NoDup (map fst all_boat_data) ->
  LeaderStream.identify_leader all_boat_data course = Return leader_data ->
  In l leader_data ->
  LeaderRow.LEADER_ID l <> ""%string /\
  exists boat_data row,
    In (LeaderRow.LEADER_ID l, boat_data) all_boat_data /\
    LeaderStream.position_data_at_timestamp boat_data (LeaderRow.DATETIME l) = Some row /\
    GpsRow.DATETIME row = LeaderRow.DATETIME l /\
    record_of_row l row /\
    (forall bid' boat_data' row',
        In (bid', boat_data') all_boat_data ->
        LeaderStream.position_data_at_timestamp boat_data' (LeaderRow.DATETIME l)
        = Some row' ->
        (GpsRow.CURRENT_LEG_NUM row' <= GpsRow.CURRENT_LEG_NUM row)%Z).
Proof.
  intros Hnd H Hin. unfold LeaderStream.identify_leader in H.
  destruct (leader_loop_in _ _ _ _ H) as (Hfrom & _).
  destruct (Hfrom _ Hin) as (t & _ & Hat).
  destruct (leader_at_spec _ _ _ _ Hnd Hat)
    as (Ht & Hid & bd & row & Hbd & Hrow & Hrec & _ & Hbest).
  subst t. split; [exact Hid |]. exists bd, row.
  split; [exact Hbd |]. split; [exact Hrow |].
  split; [exact (proj2 (find_datetime _ _ _ Hrow)) |]. split; [exact Hrec | exact Hbest].
Qed.

Lemma two_boat_fleet_nodup : NoDup (map fst two_boat_fleet).
Proof.
  simpl. constructor; [intros [H | []]; discriminate |].
  constructor; [intros [] | constructor].
Qed.

(** Witness of X18: the record at time 30 of the fleet of two boats. *)
Lemma leader_record_is_best_boat_witness :
  LeaderRow.LEADER_ID (LeaderRow.mk 30 "B" 0 0.01 0) <> ""%string.
Proof.
  apply (leader_record_is_best_boat two_boat_fleet one_mark_course _
           (LeaderRow.mk 30 "B" 0 0.01 0) two_boat_fleet_nodup two_boat_leaders).
  right. right. now left.
Defined.

(** ** Leader stream and distance to leader together *)

Lemma strongly_sorted_lt_nth (l : list Z) :
  StronglySorted Z.lt l ->
  forall i j x y, (i < j)%nat -> nth_error l i = Some x -> nth_error l j = Some y ->
                  (x < y)%Z.
Proof.
  induction 1 as [| a l Hs IH Hall]; intros i j x y Hij Hx Hy.
  - destruct i; discriminate.
  - destruct i as [| i], j as [| j]; simpl in Hx, Hy; try lia.
    + injection Hx as <-. rewrite Forall_forall in Hall.
      apply Hall. eapply nth_error_In; eassumption.
    + eapply (IH i j); try eassumption. lia.
Qed.

(** In a stream with strictly increasing timestamps, a sample is matched
    with the record that has its timestamp, when there is one. *)
Lemma exact_match_found (leader_data : list LeaderRow.t) (row : GpsRow.t)
    (e : LeaderRow.t) :
  StronglySorted Z.lt (map LeaderRow.DATETIME leader_data) ->
  In e leader_data ->
  LeaderRow.DATETIME e = GpsRow.DATETIME row ->
  Dtl.find_leader_row leader_data row = Some e.
Proof.
  intros Hs Hin Hts.
  apply In_nth_error in Hin. destruct Hin as (j & Hj).
  set (ts := map LeaderRow.DATETIME leader_data) in *.
  assert (Htj : nth_error ts j = Some (GpsRow.DATETIME row)).
  { unfold ts. rewrite nth_error_map, Hj. simpl. now rewrite Hts. }
  assert (Hjlen : (j < List.length leader_data)%nat)
    by (apply nth_error_Some; congruence).
  unfold Dtl.find_leader_row. cbv zeta. fold ts.
  destruct (searchsorted_spec ts (GpsRow.DATETIME row)) as (_ & Hlt & Hge).
  set (i := Dtl.searchsorted ts (GpsRow.DATETIME row)) in *.
  assert (Hij : (i <= j)%nat).
  { destruct (Nat.le_gt_cases i j) as [H | H]; [exact H |].
    specialize (Hlt j _ H Htj). lia. }
  assert (i = j).
  { destruct (Nat.eq_dec i j) as [E | N]; [exact E | exfalso].
    assert (Hi : (i < List.length ts)%nat) by (unfold ts; rewrite length_map; lia).
    destruct (nth_error ts i) as [x |] eqn:Ei;
      [| apply nth_error_None in Ei; lia].
    specialize (Hge x eq_refl).
    assert (x < GpsRow.DATETIME row)%Z
      by (eapply (strongly_sorted_lt_nth ts Hs i j); try eassumption; lia).
    lia. }
  subst j.
  destruct (Nat.leb_spec (List.length leader_data) i) as [H | _]; [lia | exact Hj].
Qed.

(** Every timestamp of a boat of the fleet gets a record when the ids
    are non-empty. *)
Lemma fleet_sample_has_record (all_boat_data : LeaderStream.AllBoatData)
    (course : list CompoundMark) (leader_data : list LeaderRow.t)
    (bid : string) (rows : list GpsRow.t) (row : GpsRow.t) :
  fleet_ids_ok all_boat_data ->
  In (bid, rows) all_boat_data ->
  LeaderStream.identify_leader all_boat_data course = Return leader_data ->
  In row rows ->
  exists e, In e leader_data /\ LeaderRow.DATETIME e = GpsRow.DATETIME row.
Proof.
  intros (Hnd & Hids) Hboat H Hrow. unfold LeaderStream.identify_leader in H.
  destruct (leader_loop_in _ _ _ _ H) as (_ & Hto).
  assert (Ht : In (GpsRow.DATETIME row) (LeaderStream.get_aligned_timestamps all_boat_data)).
  { apply aligned_timestamps_spec. exists (bid, rows), row. now repeat split. }
  destruct (Hto _ Ht) as (entry & Hat & Hentry).
  destruct entry as [e |].
  - exists e. split; [now apply Hentry |]. eapply leader_at_datetime; eassumption.
  - exfalso. unfold LeaderStream.leader_at in Hat.
    apply obind_return in Hat. destruct Hat as (bp & Hbp & Hat).
    apply lift_return in Hbp.
    destruct (positions_spec _ _ _ _ Hbp) as (Hsub & Hfrom & Hto').
    destruct (find_datetime_exists rows row Hrow) as (first & Hfirst).
    destruct (Hto' _ _ _ Hboat Hfirst) as (info & Hinfo & _).
    destruct bp as [| item rest]; [destruct Hinfo |].
    destruct (py_min_spec Leader.leader_key rest item) as (Hin & _).
    unfold Leader.determine_leader in Hat.
    destruct (Leader.py_min Leader.leader_key item rest) as [lid info0] eqn:Emin.
    simpl fst in Hat.
    destruct (Hfrom _ _ Hin) as (bd & r & Hbd & _).
    rewrite Forall_forall in Hids. specialize (Hids _ Hbd). simpl in Hids.
    destruct (String.eqb_spec lid "") as [Hempty | Hne]; [contradiction |].
    destruct (LeaderStream.dict_get (item :: rest) lid); discriminate.
Qed.

(** X19. When the leader stream is computed from a fleet with distinct,
    non-empty boat ids, [calculate_dtl] for a boat of that fleet skips
    no sample: every sample is matched with the leader record of its
    own timestamp, and the frame returned has one row per sample, with
    the timestamps of the samples in order. *)
Theorem dtl_of_fleet_boat_skips_nothing (all_boat_data : LeaderStream.AllBoatData)
    (course : list CompoundMark) (leader_data : list LeaderRow.t)
    (bid : string) (rows : list GpsRow.t) (out : list DtlRow.t) :
  fleet_ids_ok all_boat_data ->
  In (bid, rows) all_boat_data ->
  LeaderStream.identify_leader all_boat_data course = Return leader_data ->
  Dtl.calculate_dtl rows leader_data course = Ok out ->
  map DtlRow.DATETIME out = map GpsRow.DATETIME rows /\
  List.length out = List.length rows /\
  (forall row, In row rows ->
     exists l, Dtl.find_leader_row leader_data row = Some l /\
               LeaderRow.DATETIME l = GpsRow.DATETIME row).
Proof.
  intros Hok Hboat Hlead Hdtl.
  destruct (identify_leader_sorted _ _ _ Hlead) as (Hs & _).
  assert (Hmatch : forall row, In row rows ->
            exists l, Dtl.find_leader_row leader_data row = Some l /\
                      LeaderRow.DATETIME l = GpsRow.DATETIME row).
  { intros row Hrow.
    destruct (fleet_sample_has_record _ _ _ _ _ _ Hok Hboat Hlead Hrow) as (e & He & Hts).
    exists e. split; [now apply exact_match_found | exact Hts]. }
  assert (Hts : map DtlRow.DATETIME out = map GpsRow.DATETIME rows).
  { clear Hboat. revert out Hdtl.
    induction rows as [| r rest IH]; intros out Hdtl; simpl in Hdtl.
    - inv_ok Hdtl. reflexivity.
    - apply bind_ok in Hdtl. destruct Hdtl as (o & Ho & Hdtl).
      apply bind_ok in Hdtl. destruct Hdtl as (rs & Hrs & Hdtl). inv_ok Hdtl.
      destruct (Hmatch r (or_introl eq_refl)) as (l & Hl & _).
      unfold Dtl.dtl_row in Ho. rewrite Hl in Ho.
      apply bind_ok in Ho. destruct Ho as (d & Hd & Ho). inv_ok Ho.
      apply dtl_record_nonneg in Hd. destruct Hd as (Hd & _).
      simpl. rewrite Hd. f_equal. apply IH; [| exact Hrs].
      intros row Hrow. apply Hmatch. now right. }
  split; [exact Hts |]. split; [| exact Hmatch].
  rewrite <- (length_map DtlRow.DATETIME), Hts. apply length_map.
Qed.

Lemma two_boat_fleet_ok : fleet_ids_ok two_boat_fleet.
Proof.
  split; [exact two_boat_fleet_nodup |].
  repeat constructor; discriminate.
Qed.

Lemma boat_a_dtl :
  Dtl.calculate_dtl boat_a_rows
    [LeaderRow.mk 10 "A" 0 0 0; LeaderRow.mk 20 "A" 0 0 0; LeaderRow.mk 30 "B" 0 0.01 0]
    one_mark_course
  = Ok [DtlRow.mk 10 0 0 0; DtlRow.mk 20 0 0 0].
Proof.
  run_model. rewrite !haversine_self. rewrite !ltb_true by lra. reflexivity.
Qed.

(** Witness of X19: boat A of the fleet of two boats. *)
Lemma dtl_of_fleet_boat_skips_nothing_witness :
  map DtlRow.DATETIME [DtlRow.mk 10 0 0 0; DtlRow.mk 20 0 0 0]
  = map GpsRow.DATETIME boat_a_rows.
Proof.
  exact (proj1 (dtl_of_fleet_boat_skips_nothing two_boat_fleet one_mark_course _
                  "A" boat_a_rows _ two_boat_fleet_ok (or_introl eq_refl)
                  two_boat_leaders boat_a_dtl)).
Defined.

(** X20. The leader is 0 m and 0 legs behind the leader: for a record of
    the leader stream, the row of the named boat that the record was
    made from gets DTL_DIRECT 0, DTL_INDIRECT 0 and LEG_BEHIND 0, and no
    exception. *)
Theorem leader_own_dtl_is_zero (all_boat_data : LeaderStream.AllBoatData)
    (course : list CompoundMark) (leader_data : list LeaderRow.t)
    (l : LeaderRow.t) (boat_data : list GpsRow.t) (row : GpsRow.t) :
  NoDup (map fst all_boat_data) ->
  LeaderStream.identify_leader all_boat_data course = Return leader_data ->
  In l leader_data ->
  In (LeaderRow.LEADER_ID l, boat_data) all_boat_data ->
  LeaderStream.position_data_at_timestamp boat_data (LeaderRow.DATETIME l) = Some row ->
  Dtl.dtl_row leader_data course row = Ok (Some (DtlRow.mk (LeaderRow.DATETIME l) 0 0 0)).
Proof.
  intros Hnd Hlead Hin Hboat Hrow.
  destruct (identify_leader_sorted _ _ _ Hlead) as (Hs & _).
  pose proof Hlead as Hloop. unfold LeaderStream.identify_leader in Hloop.
  destruct (leader_loop_in _ _ _ _ Hloop) as (Hfrom & _).
  destruct (Hfrom _ Hin) as (t & _ & Hat).
  destruct (leader_at_spec _ _ _ _ Hnd Hat)
    as (Ht & _ & bd & row' & Hbd & Hrow' & (Hlat & Hlon & Hleg) & (cm & m & Hcm & Hm) & _).
  subst t.
  assert (bd = boat_data) by (eapply nodup_fst_inj; eassumption). subst bd.
  rewrite Hrow in Hrow'. injection Hrow' as <-.
  destruct (find_datetime _ _ _ Hrow) as (_ & Hts).
  unfold Dtl.dtl_row.
  rewrite (exact_match_found leader_data row l Hs Hin (eq_sym Hts)).
  unfold Dtl.dtl_record. rewrite Hcm. simpl bind. rewrite Hm. simpl bind. cbv zeta.
  rewrite Hlat, Hlon, haversine_self, Hts, Z.eqb_refl.
  rewrite ltb_true by lra. reflexivity.
Qed.

(** Witness of X20: boat B leads at time 30. *)
Lemma leader_own_dtl_is_zero_witness :
  Dtl.dtl_row
    [LeaderRow.mk 10 "A" 0 0 0; LeaderRow.mk 20 "A" 0 0 0; LeaderRow.mk 30 "B" 0 0.01 0]
    one_mark_course (GpsRow.mk 30 0 0.01 0 6 90)
  = Ok (Some (DtlRow.mk 30 0 0 0)).
Proof.
  apply (leader_own_dtl_is_zero two_boat_fleet one_mark_course _
           (LeaderRow.mk 30 "B" 0 0.01 0) boat_b_rows (GpsRow.mk 30 0 0.01 0 6 90)
           two_boat_fleet_nodup two_boat_leaders).
  - right. right. now left.
  - right. now left.
  - reflexivity.
Defined.

(** X21. The frame [calculate_dtl] returns keeps the order of the
    samples: its timestamps are the timestamps of the input with some
    left out, and no distance in it is negative. *)
Theorem dtl_rows_ordered_nonneg (position_data : list GpsRow.t)
    (leader_data : list LeaderRow.t) (course : list CompoundMark)
    (out : list DtlRow.t) :
  Dtl.calculate_dtl position_data leader_data course = Ok out ->
  subseq (map DtlRow.DATETIME out) (map GpsRow.DATETIME position_data) /\
  Forall (fun d => 0 <= DtlRow.DTL_DIRECT d /\ 0 <= DtlRow.DTL_INDIRECT d) out.
Proof.
  revert out. induction position_data as [| row rest IH]; intros out H; simpl in H.
  - inv_ok H. split; constructor.
  - apply bind_ok in H. destruct H as (o & Ho & H).
    apply bind_ok in H. destruct H as (rs & Hrs & H). inv_ok H.
    destruct (IH _ Hrs) as (Hsub & Hall).
    unfold Dtl.dtl_row in Ho.
    destruct (Dtl.find_leader_row leader_data row) as [l |].
    + apply bind_ok in Ho. destruct Ho as (d & Hd & Ho). inv_ok Ho.
      apply dtl_record_nonneg in Hd. destruct Hd as (Hts & Hnn).
      split; [simpl; rewrite Hts; now apply subseq_keep |].
      constructor; assumption.
    + inv_ok Ho. split; [simpl; now apply subseq_skip | exact Hall].
Qed.

(** Witness of X21: boat A against the leaders of the fleet of two. *)
Lemma dtl_rows_ordered_nonneg_witness :
  Forall (fun d => 0 <= DtlRow.DTL_DIRECT d /\ 0 <= DtlRow.DTL_INDIRECT d)
    [DtlRow.mk 10 0 0 0; DtlRow.mk 20 0 0 0].
Proof.
  exact (proj2 (dtl_rows_ordered_nonneg boat_a_rows _ one_mark_course _ boat_a_dtl)).
Defined.

(** ** Next mark *)

Lemma lift_ok_in {A : Type} (l : list A) (i : Z) (a : A) :
  lift (py_index l i) = Return a -> py_index l i = Ok a /\ In a l.
Proof.
  intros H. apply lift_return in H. split; [exact H |].
  unfold py_index in H. cbv zeta in H.
  destruct (_ && _)%bool; [| discriminate].
  destruct (nth_error l _) as [x |] eqn:E; [| discriminate].
  injection H as <-. eapply nth_error_In; eassumption.
Qed.

(** X22. When [find_next_mark] returns a mark, the index it returns is
    the index it was given and the mark is one of the marks of the
    compound mark at that index, which has one or two marks; past the
    end of the course it returns nothing, and on a compound mark of
    three or more marks it raises [ValueError]. *)
Theorem find_next_mark_target (calculate_bearing : R -> R -> R -> R -> R)
    (current_pos : point) (course : list CompoundMark) (current_mark_idx : Z) :
  (forall i m,
      NextMark.find_next_mark calculate_bearing current_pos course current_mark_idx
      = Return (Some (i, m)) ->
      i = current_mark_idx /\
      exists cm, py_index course current_mark_idx = Ok cm /\ In m (marks cm) /\
                 (1 <= List.length (marks cm) <= 2)%nat) /\
  ((Course.len_course course <= current_mark_idx)%Z ->
   NextMark.find_next_mark calculate_bearing current_pos course current_mark_idx
   = Return None) /\
  (forall cm, py_index course current_mark_idx = Ok cm ->
              (current_mark_idx < Course.len_course course)%Z ->
              (3 <= List.length (marks cm))%nat ->
              NextMark.find_next_mark calculate_bearing current_pos course
                current_mark_idx = Throw PyValueError).
Proof.
  unfold NextMark.find_next_mark. split; [| split].
  - intros i m H.
    destruct (Course.len_course course <=? current_mark_idx)%Z; [discriminate |].
    apply obind_return in H. destruct H as (cm & Hcm & H).
    apply lift_ok_in in Hcm. destruct Hcm as (Hcm & _).
    destruct (Nat.ltb_spec 1 (List.length (marks cm))) as [Hlen | Hlen].
    + destruct (marks cm) as [| m1 [| m2 [| m3 rest]]] eqn:E; try discriminate.
      injection H as <- <-. split; [reflexivity |].
      exists cm. split; [exact Hcm |]. rewrite E. split; [| simpl; lia].
      destruct (Np.ltb _ _); [now left | right; now left].
    + apply obind_return in H. destruct H as (m0 & Hm0 & H).
      injection H as <- <-. apply lift_ok_in in Hm0. destruct Hm0 as (_ & Hin).
      split; [reflexivity |]. exists cm. split; [exact Hcm |].
      split; [exact Hin |]. destruct (marks cm); [destruct Hin | simpl in *; lia].
  - intros Hlen. destruct (Z.leb_spec (Course.len_course course) current_mark_idx);
      [reflexivity | lia].
  - intros cm Hcm Hidx Hlen.
    destruct (Z.leb_spec (Course.len_course course) current_mark_idx); [lia |].
    rewrite Hcm. simpl.
    destruct (Nat.ltb_spec 1 (List.length (marks cm))) as [_ | H1]; [| lia].
    destruct (marks cm) as [| m1 [| m2 [| m3 rest]]]; simpl in Hlen; try lia.
    reflexivity.
Qed.

(** ** Leg type *)

Lemma prefix_not_eq (p s t : string) :
  String.prefix p s = true -> String.prefix p t = false -> String.eqb s t = false.
Proof.
  intros Hs Ht. destruct (String.eqb_spec s t) as [-> | _]; [congruence | reflexivity].
Qed.

(** X23. The name rules of [determine_leg_type] come before the wind:
    for compound marks that have a mark, the leg from SL1 to M1 is
    upwind, from M1 to a mark named LG... downwind, from LG... to WG...
    upwind and from WG... to LG... downwind, whatever the wind direction
    and the bearing. *)
Theorem leg_type_name_rules (calculate_bearing : R -> R -> R -> R -> R)
    (start_mark end_mark : CompoundMark) (wind_direction : R) :
  marks start_mark <> [] -> marks end_mark <> [] ->
  (cm_name start_mark = "SL1"%string -> cm_name end_mark = "M1"%string ->
   LegAnalyzer.determine_leg_type calculate_bearing start_mark end_mark wind_direction
   = Ok "upwind"%string) /\
  (cm_name start_mark = "M1"%string -> String.prefix "LG" (cm_name end_mark) = true ->
   LegAnalyzer.determine_leg_type calculate_bearing start_mark end_mark wind_direction
   = Ok "downwind"%string) /\
  (String.prefix "LG" (cm_name start_mark) = true ->
   String.prefix "WG" (cm_name end_mark) = true ->
   LegAnalyzer.determine_leg_type calculate_bearing start_mark end_mark wind_direction
   = Ok "upwind"%string) /\
  (String.prefix "WG" (cm_name start_mark) = true ->
   String.prefix "LG" (cm_name end_mark) = true ->
   LegAnalyzer.determine_leg_type calculate_bearing start_mark end_mark wind_direction
   = Ok "downwind"%string).
Proof.
  intros Hs He. unfold LegAnalyzer.determine_leg_type.
  destruct (py_index_in_range (marks start_mark) 0) as (s0 & -> & _);
    [destruct (marks start_mark); [congruence | simpl; lia] |].
  destruct (py_index_in_range (marks end_mark) 0) as (e0 & -> & _);
    [destruct (marks end_mark); [congruence | simpl; lia] |].
  simpl bind. cbv zeta. repeat split.
  - intros -> ->. reflexivity.
  - intros -> Hp. rewrite Hp. reflexivity.
  - intros Hp1 Hp2. rewrite Hp1, Hp2.
    rewrite (prefix_not_eq "LG" (cm_name start_mark) "SL1" Hp1 eq_refl).
    rewrite (prefix_not_eq "LG" (cm_name start_mark) "M1" Hp1 eq_refl).
    reflexivity.
  - intros Hp1 Hp2. rewrite Hp1, Hp2.
    rewrite (prefix_not_eq "WG" (cm_name start_mark) "SL1" Hp1 eq_refl).
    rewrite (prefix_not_eq "WG" (cm_name start_mark) "M1" Hp1 eq_refl).
    assert (Hlg : String.prefix "LG" (cm_name start_mark) = false).
    { destruct (String.prefix "LG" (cm_name start_mark)) eqn:E; [exfalso | reflexivity].
      destruct (cm_name start_mark) as [| c1 rest]; [discriminate |].
      cbn [String.prefix] in Hp1, E.
      match type of Hp1 with
      | context [Ascii.ascii_dec ?a c1] =>
          destruct (Ascii.ascii_dec a c1) as [<- | N]; [| discriminate]
      end.
      match type of E with
      | context [Ascii.ascii_dec ?a ?b] =>
          destruct (Ascii.ascii_dec a b) as [Heq | N]; discriminate
      end. }
    rewrite Hlg. reflexivity.
Qed.

(** Witness of X23: the leg from SL1 to M1 with the wind from astern. *)
Lemma leg_type_name_rules_witness :
  LegAnalyzer.determine_leg_type north_bearing (single_mark "SL1" 0 0)
    (single_mark "M1" 1 0) 180 = Ok "upwind"%string.
Proof.
  assert (Hs : marks (single_mark "SL1" 0 0) <> []) by discriminate.
  assert (He : marks (single_mark "M1" 1 0) <> []) by discriminate.
  exact (proj1 (leg_type_name_rules north_bearing (single_mark "SL1" 0 0)
                  (single_mark "M1" 1 0) 180 Hs He) eq_refl eq_refl).
Defined.

Lemma py_fmod_range (x : R) : 0 <= py_fmod x 360 < 360.
Proof.
  unfold py_fmod. pose proof (Zfloor_bound (x / 360)) as [Hl Hu].
  assert (E : x = 360 * (x / 360)) by field. lra.
Qed.

Lemma py_fmod_add_turns (x : R) (k : Z) : py_fmod (x + 360 * IZR k) 360 = py_fmod x 360.
Proof.
  unfold py_fmod.
  replace ((x + 360 * IZR k) / 360) with (x / 360 + IZR k) by field.
  rewrite Zfloor_addz, plus_IZR. ring.
Qed.

Lemma py_fmod_opp (x : R) :
  (py_fmod x 360 = 0 -> py_fmod (- x) 360 = 0) /\
  (py_fmod x 360 <> 0 -> py_fmod (- x) 360 = 360 - py_fmod x 360).
Proof.
  unfold py_fmod. pose proof (Zfloor_bound (x / 360)) as [Hl Hu].
  set (q := Zfloor (x / 360)) in *.
  assert (E : x = 360 * (x / 360)) by field.
  split; intros H.
  - assert (Hq : Zfloor (- x / 360) = (- q)%Z).
    { apply Zfloor_eq. rewrite opp_IZR.
      replace (- x / 360) with (- (x / 360)) by field. lra. }
    rewrite Hq, opp_IZR. lra.
  - assert (Hq : Zfloor (- x / 360) = (- q - 1)%Z).
    { apply Zfloor_eq. rewrite minus_IZR, opp_IZR.
      replace (- x / 360) with (- (x / 360)) by field.
      assert (x / 360 <> IZR q) by (intros Heq; apply H; lra). lra. }
    rewrite Hq, minus_IZR, opp_IZR. lra.
Qed.

Lemma by_angle_upwind_low (r : R) :
  0 <= r <= 90 -> LegAnalyzer.leg_type_by_angle r = "upwind"%string.
Proof.
  intros [H0 H1]. unfold LegAnalyzer.leg_type_by_angle.
  now rewrite (leb_true _ _ H0), (leb_true _ _ H1).
Qed.

Lemma by_angle_upwind_high (r : R) :
  270 <= r <= 360 -> LegAnalyzer.leg_type_by_angle r = "upwind"%string.
Proof.
  intros [H0 H1]. unfold LegAnalyzer.leg_type_by_angle.
  rewrite (leb_true _ _ H0), (leb_true _ _ H1). now rewrite orb_true_r.
Qed.

Lemma by_angle_downwind (r : R) :
  150 <= r <= 210 -> LegAnalyzer.leg_type_by_angle r = "downwind"%string.
Proof.
  intros [H0 H1]. unfold LegAnalyzer.leg_type_by_angle.
  rewrite (leb_false r 90) by lra. rewrite (leb_false 270 r) by lra.
  rewrite (leb_true _ _ H0), (leb_true _ _ H1). now rewrite andb_false_r.
Qed.

Lemma by_angle_reaching_fore (r : R) :
  90 < r < 150 -> LegAnalyzer.leg_type_by_angle r = "reaching"%string.
Proof.
  intros [H0 H1]. unfold LegAnalyzer.leg_type_by_angle.
  rewrite (leb_false r 90) by lra. rewrite (leb_false 270 r) by lra.
  rewrite (leb_false 150 r) by lra. now rewrite andb_false_r.
Qed.

Lemma by_angle_reaching_aft (r : R) :
  210 < r < 270 -> LegAnalyzer.leg_type_by_angle r = "reaching"%string.
Proof.
  intros [H0 H1]. unfold LegAnalyzer.leg_type_by_angle.
  rewrite (leb_false r 90) by lra. rewrite (leb_false 270 r) by lra.
  rewrite (leb_false r 210) by lra. now rewrite !andb_false_r.
Qed.

Lemma by_angle_mirror (x : R) :
  LegAnalyzer.leg_type_by_angle (py_fmod (- x) 360)
  = LegAnalyzer.leg_type_by_angle (py_fmod x 360).
Proof.
  destruct (py_fmod_opp x) as (Hz & Hnz). pose proof (py_fmod_range x) as Hr.
  destruct (Req_dec_T (py_fmod x 360) 0) as [E | N].
  - now rewrite (Hz E), E.
  - rewrite (Hnz N). set (r := py_fmod x 360) in *.
    destruct (Rle_dec r 90).
    { rewrite (by_angle_upwind_low r) by lra. apply by_angle_upwind_high. lra. }
    destruct (Rlt_dec r 150).
    { rewrite (by_angle_reaching_fore r) by lra. apply by_angle_reaching_aft. lra. }
    destruct (Rle_dec r 210).
    { rewrite (by_angle_downwind r) by lra. apply by_angle_downwind. lra. }
    destruct (Rlt_dec r 270).
    { rewrite (by_angle_reaching_aft r) by lra. apply by_angle_reaching_fore. lra. }
    rewrite (by_angle_upwind_high r) by lra. apply by_angle_upwind_low. lra.
Qed.

(** X24. [determine_leg_type] sees the wind direction only modulo a
    full turn and does not tell port from starboard: adding any number
    of turns to the wind direction, or mirroring the wind about the leg
    bearing, gives the same answer; the answer is always one of
    "upwind", "downwind" and "reaching". *)
Theorem leg_type_wind_symmetry (calculate_bearing : R -> R -> R -> R -> R)
    (start_mark end_mark : CompoundMark) (wind_direction theta : R) (k : Z) :
  LegAnalyzer.determine_leg_type calculate_bearing start_mark end_mark
    (wind_direction + 360 * IZR k)
  = LegAnalyzer.determine_leg_type calculate_bearing start_mark end_mark wind_direction /\
  (forall s0 e0,
      py_index (marks start_mark) 0 = Ok s0 ->
      py_index (marks end_mark) 0 = Ok e0 ->
      LegAnalyzer.determine_leg_type calculate_bearing start_mark end_mark
        (calculate_bearing (mark_lat s0) (mark_lon s0) (mark_lat e0) (mark_lon e0) + theta)
      = LegAnalyzer.determine_leg_type calculate_bearing start_mark end_mark
          (calculate_bearing (mark_lat s0) (mark_lon s0) (mark_lat e0) (mark_lon e0) - theta)) /\
  (forall t,
      LegAnalyzer.determine_leg_type calculate_bearing start_mark end_mark wind_direction
      = Ok t ->
      t = "upwind"%string \/ t = "downwind"%string \/ t = "reaching"%string).
Proof.
  unfold LegAnalyzer.determine_leg_type. split; [| split].
  - destruct (py_index (marks start_mark) 0) as [s0 |]; [| reflexivity].
    destruct (py_index (marks end_mark) 0) as [e0 |]; [| reflexivity].
    simpl bind. cbv zeta.
    set (b := calculate_bearing _ _ _ _).
    replace (wind_direction + 360 * IZR k - b)
      with (wind_direction - b + 360 * IZR k) by ring.
    now rewrite py_fmod_add_turns.
  - intros s0 e0 -> ->. simpl bind. cbv zeta.
    set (b := calculate_bearing _ _ _ _).
    replace (b + theta - b) with theta by ring.
    replace (b - theta - b) with (- theta) by ring.
    now rewrite by_angle_mirror.
  - intros t H.
    apply bind_ok in H. destruct H as (s0 & _ & H).
    apply bind_ok in H. destruct H as (e0 & _ & H). cbv zeta in H.
    repeat (destruct (_ && _)%bool in H; [inv_ok H; auto |]).
    inv_ok H. unfold LegAnalyzer.leg_type_by_angle.
    destruct (_ || _)%bool; [auto |]. destruct (_ && _)%bool; auto.
Qed.

(** ** Rounding zone *)

Lemma is_mark_rounded_in_zone (cur prev : point) (cm : CompoundMark) (m : Mark) :
  Gps.haversine_distance cur prev <= Course.MAX_POSITION_JUMP ->
  In m (marks cm) ->
  Gps.haversine_distance cur (mark_pos m) <= Course.ROUNDING_ZONE ->
  Course.is_mark_rounded cur cm (Some prev) = Ok true.
Proof.
  intros Hjump Hin Hzone. unfold Course.is_mark_rounded, Course.position_jumped.
  rewrite (gtb_false _ _ Hjump).
  assert (Hz : Course.in_rounding_zone cur m = true)
    by (unfold Course.in_rounding_zone; now apply leb_true).
  destruct (Nat.eqb_spec (List.length (marks cm)) 1) as [H1 | H1].
  - destruct (marks cm) as [| m0 [| ? ?]]; try discriminate.
    destruct Hin as [-> | []]. rewrite py_index_head. simpl. now rewrite Hz.
  - assert (He : existsb (Course.in_rounding_zone cur) (marks cm) = true).
    { apply existsb_exists. now exists m. }
    now rewrite He.
Qed.

(** X25. A sample within 300 m of the previous one and within 100 m of
    a mark of the target compound mark, single mark or gate, rounds it:
    [is_mark_rounded] answers True, and when the target is not the last
    compound mark of the course the step of the tracker for that sample
    writes the index plus one. *)
Theorem rounding_zone_advances (course : list CompoundMark) (idx t : Z)
    (cur prev : point) (cm : CompoundMark) (m : Mark)
    (r : TrackRow.t * Course.ProgressState) :
  Gps.haversine_distance cur prev <= Course.MAX_POSITION_JUMP ->
  py_index course idx = Ok cm ->
  In m (marks cm) ->
  Gps.haversine_distance cur (mark_pos m) <= Course.ROUNDING_ZONE ->
  (idx < Course.len_course course - 1)%Z ->
  Course.track_step course (Course.mkState idx (Some prev))
    (BoatRow.mk t (fst cur) (snd cur)) = Ok r ->
  Course.is_mark_rounded cur cm (Some prev) = Ok true /\
  TrackRow.CURRENT_LEG_NUM (fst r) = (idx + 1)%Z.
Proof.
  intros Hjump Hcm Hin Hzone Hidx H.
  pose proof (is_mark_rounded_in_zone cur prev cm m Hjump Hin Hzone) as Hr.
  split; [exact Hr |].
  unfold Course.track_step in H.
  apply bind_ok in H. destruct H as (idx' & Hadv & H).
  apply bind_ok in H. destruct H as (o & Ho & H). inv_ok H. simpl.
  apply next_mark_info_leg in Ho. rewrite Ho.
  unfold Course.advance in Hadv. simpl in Hadv.
  destruct (Z.ltb_spec idx (Course.len_course course - 1)) as [_ | Hge]; [| lia].
  rewrite Hcm in Hadv. simpl in Hadv.
  replace (fst cur, snd cur) with cur in Hadv by (destruct cur; reflexivity).
  rewrite Hr in Hadv. simpl in Hadv. now inv_ok Hadv.
Qed.

Lemma moored_second_step :
  Course.track_step two_mark_course (Course.mkState 0 (Some (0, 0))) (BoatRow.mk 1 0 0)
  = Ok (TrackRow.mk "M2" 0 1, Course.mkState 1 (Some (0, 0))).
Proof.
  run_model. rewrite !haversine_self.
  rewrite gtb_false by lra. rewrite leb_true by lra.
  run_model. rewrite !haversine_self. reflexivity.
Qed.

(** Witness of X25: a boat sitting on the first of two marks. *)
Lemma rounding_zone_advances_witness :
  Course.is_mark_rounded (0, 0) (single_mark "M1" 0 0) (Some (0, 0)) = Ok true /\
  TrackRow.CURRENT_LEG_NUM (TrackRow.mk "M2" 0 1) = (0 + 1)%Z.
Proof.
  apply (rounding_zone_advances two_mark_course 0 1 (0, 0) (0, 0)
           (single_mark "M1" 0 0) (mkMark "M1" 0 0 1 None None)
           (TrackRow.mk "M2" 0 1, Course.mkState 1 (Some (0, 0)))).
  - rewrite haversine_self. unfold Course.MAX_POSITION_JUMP. lra.
  - reflexivity.
  - now left.
  - unfold mark_pos. simpl. rewrite haversine_self. unfold Course.ROUNDING_ZONE. lra.
  - vm_compute. reflexivity.
  - exact moored_second_step.
Defined.

(** ** Ties in the leader selection *)

Lemma lex_total (a b : Z * R) : ~ lex_lt a b -> ~ lex_lt b a -> a = b.
Proof.
  unfold lex_lt. destruct a as [a1 a2], b as [b1 b2]. simpl. intros H1 H2.
  destruct (Z.lt_trichotomy a1 b1) as [H | [H | H]].
  - exfalso. apply H1. now left.
  - subst b1. destruct (Rtotal_order a2 b2) as [Hr | [Hr | Hr]].
    + exfalso. apply H1. right. now split.
    + now subst.
    + exfalso. apply H2. right. now split.
  - exfalso. apply H2. now left.
Qed.

(** [py_min] splits the sequence at the item it returns: every item
    before it has a strictly larger key, no item after it a smaller
    one. *)
Lemma py_min_first {A : Type} (key : A -> Z * R) (rest : list A) :
  forall first : A,
  exists before after,
    first :: rest = before ++ Leader.py_min key first rest :: after /\
    (forall x, In x before -> lex_lt (key (Leader.py_min key first rest)) (key x)) /\
    (forall x, In x after -> ~ lex_lt (key x) (key (Leader.py_min key first rest))).
Proof.
  unfold Leader.py_min.
  induction rest as [| y rest IH]; intros first; simpl fold_left.
  - exists [], []. split; [reflexivity |]. split; intros x [].
  - destruct (Leader.key_lt (key y) (key first)) eqn:E.
    + apply key_lt_spec in E.
      destruct (IH y) as (before & after & Hsplit & Hb & Ha).
      exists (first :: before), after. split; [simpl; now rewrite Hsplit |].
      split; [| exact Ha].
      intros x [<- | Hx]; [| now apply Hb].
      destruct (py_min_spec key rest y) as (_ & Hmin).
      unfold Leader.py_min in Hmin. specialize (Hmin y (or_introl eq_refl)).
      set (m := fold_left _ rest y) in *.
      assert (Hnot : ~ lex_lt (key first) (key m)).
      { intros H. apply Hmin. eapply lex_lt_trans; [exact E | exact H]. }
      destruct (Leader.key_lt (key m) (key first)) eqn:K;
        [now apply key_lt_spec in K |].
      exfalso.
      assert (Hnk : ~ lex_lt (key m) (key first))
        by (intros H; apply key_lt_spec in H; congruence).
      rewrite (lex_total _ _ Hnk Hnot) in Hmin. contradiction.
    + assert (N : ~ lex_lt (key y) (key first)).
      { intros H. apply key_lt_spec in H. congruence. }
      destruct (IH first) as (before & after & Hsplit & Hb & Ha).
      destruct before as [| b0 before'].
      * simpl in Hsplit. injection Hsplit as Hm Hrest.
        exists [], (y :: after). split; [simpl; now rewrite <- Hm, Hrest |].
        split; [intros x [] |].
        intros x [<- | Hx]; [now rewrite <- Hm | now apply Ha].
      * simpl in Hsplit. injection Hsplit as <- Hrest.
        exists (first :: y :: before'), after.
        split; [simpl; do 2 f_equal; exact Hrest |]. split; [| exact Ha].
        intros x [<- | [<- | Hx]].
        -- apply Hb. now left.
        -- assert (Hfm : lex_lt (key (fold_left
                     (fun best x => if Leader.key_lt (key x) (key best) then x else best)
                     rest first)) (key first)) by (apply Hb; now left).
           set (m := fold_left _ rest first) in *.
           destruct (Leader.key_lt (key m) (key y)) eqn:K;
             [now apply key_lt_spec in K |].
           exfalso. apply N.
           destruct (Leader.key_lt (key y) (key m)) eqn:K2.
           ++ apply key_lt_spec in K2. eapply lex_lt_trans; eassumption.
           ++ assert (H1 : ~ lex_lt (key m) (key y))
                by (intros H; apply key_lt_spec in H; congruence).
              assert (H2 : ~ lex_lt (key y) (key m))
                by (intros H; apply key_lt_spec in H; congruence).
              rewrite <- (lex_total _ _ H1 H2). exact Hfm.
        -- apply Hb. now right.
Qed.

(** X26. Ties go to the boat inserted first: [determine_leader] returns
    the id of the first item of the dict whose key is minimal, so every
    item before it has a strictly worse key (a lower mark index, or the
    same index and a strictly larger distance). *)
Theorem determine_leader_first_of_ties (boat_positions : Leader.BoatPositions) :
  boat_positions <> [] ->
  exists before bid info after,
    boat_positions = before ++ (bid, info) :: after /\
    Leader.determine_leader boat_positions = Some bid /\
    (forall item, In item before ->
       (Leader.mark_idx (snd item) < Leader.mark_idx info)%Z \/
       (Leader.mark_idx (snd item) = Leader.mark_idx info /\
        Leader.dist_to_mark info < Leader.dist_to_mark (snd item))) /\
    (forall item, In item after ->
       (Leader.mark_idx (snd item) < Leader.mark_idx info)%Z \/
       (Leader.mark_idx (snd item) = Leader.mark_idx info /\
        Leader.dist_to_mark info <= Leader.dist_to_mark (snd item))).
Proof.
  intros Hne. destruct boat_positions as [| item rest]; [congruence |].
  destruct (py_min_first Leader.leader_key rest item)
    as (before & after & Hsplit & Hb & Ha).
  destruct (Leader.py_min Leader.leader_key item rest) as [bid info] eqn:E.
  exists before, bid, info, after. split; [exact Hsplit |].
  split; [unfold Leader.determine_leader; now rewrite E |]. split.
  - intros x Hx. specialize (Hb x Hx).
    unfold lex_lt, Leader.leader_key in Hb. simpl in Hb.
    destruct Hb as [H | [H1 H2]]; [left; lia | right; split; [lia | exact H2]].
  - intros x Hx. specialize (Ha x Hx).
    unfold lex_lt, Leader.leader_key in Ha. simpl in Ha.
    destruct (Z.lt_trichotomy (Leader.mark_idx (snd x)) (Leader.mark_idx info))
      as [Hlt | [Heq | Hgt]].
    + now left.
    + right. split; [exact Heq |].
      destruct (Rle_dec (Leader.dist_to_mark info) (Leader.dist_to_mark (snd x)))
        as [Hle | Hnle]; [exact Hle |].
      exfalso. apply Ha. right. split; [lia | lra].
    + exfalso. apply Ha. left. lia.
Qed.

(** Witness of X26: three tied boats, the first inserted wins. *)
Lemma determine_leader_first_of_ties_witness :
  Leader.determine_leader tied_boats = Some "C"%string.
Proof.
  assert (Hne : tied_boats <> []) by discriminate.
  destruct (determine_leader_first_of_ties tied_boats Hne)
    as (before & bid & info & after & Hsplit & Hsel & Hb & _).
  rewrite Hsel. f_equal.
  destruct before as [| b0 before'].
  - simpl in Hsplit. unfold tied_boats in Hsplit. now injection Hsplit as <- _ _.
  - exfalso. unfold tied_boats in Hsplit. simpl in Hsplit.
    injection Hsplit as <- Hrest.
    assert (Hinfo : In (bid, info)
                      [("A"%string, Leader.mkInfo (0, 0) 1 30);
                       ("B"%string, Leader.mkInfo (0, 0) 1 30)]).
    { rewrite Hrest. apply in_or_app. right. now left. }
    specialize (Hb _ (or_introl eq_refl)). simpl in Hb.
    destruct Hinfo as [E | [E | []]]; injection E as <- <-; simpl in Hb;
      destruct Hb as [H | [_ H]]; try lia; lra.
Defined.

(** ** Intersection of two bearings *)

(** X27. For two rays that start at the same point
    [calculate_intersection] returns that point, whatever the two
    bearings. *)
Theorem intersection_of_coincident_points (p : point) (start_bearing end_bearing : R) :
  Intersection.calculate_intersection p start_bearing p end_bearing = p.
Proof.
  unfold Intersection.calculate_intersection. cbv zeta.
  replace ((Np.radians (fst p) - Np.radians (fst p)) / 2) with 0 by field.
  replace ((Np.radians (snd p) - Np.radians (snd p)) / 2) with 0 by field.
  rewrite sin_0.
  replace (0 ^ 2 + cos (Np.radians (fst p)) * cos (Np.radians (fst p)) * 0 ^ 2)
    with 0 by ring.
  rewrite sqrt_0, asin_0, Rmult_0_r.
  unfold Np.eqb at 1. destruct (Req_dec_T 0 0); [reflexivity | congruence].
Qed.

(** ** Compass average *)


Lemma range_step_in (w fuel i stop j : nat) :
  In j (Compass.range_step fuel i stop w) -> (i <= j < stop)%nat.
Proof.
  revert i. induction fuel as [| fuel IH]; intros i H; simpl in H; [destruct H |].
  destruct (Nat.ltb_spec i stop) as [Hlt | Hge]; [| destruct H].
  destruct H as [<- | H]; [lia |]. specialize (IH _ H). lia.
Qed.



Lemma arctan2_core (r : R) :
  - (PI / 2) < r < PI / 2 -> Np.arctan2 (sin r) (cos r) = r.
Proof.
  intros Hr. assert (Hc : 0 < cos r) by (apply cos_gt_0; lra).
  unfold Np.arctan2. destruct (Rlt_dec 0 (cos r)); [| contradiction].
  change (sin r / cos r) with (tan r). now apply atan_tan.
Qed.

Lemma arctan2_shifted (r : R) :
  - (PI / 2) < r < PI / 2 ->
  Np.arctan2 (- sin r) (- cos r) = if Rle_dec r 0 then r + PI else r - PI.
Proof.
  intros Hr. pose proof PI_RGT_0 as Hpi.
  assert (Hc : 0 < cos r) by (apply cos_gt_0; lra).
  unfold Np.arctan2.
  destruct (Rlt_dec 0 (- cos r)); [lra |].
  destruct (Rlt_dec (- cos r) 0); [| lra].
  replace (- sin r / - cos r) with (tan r) by (unfold tan; field; lra).
  rewrite atan_tan by lra.
  destruct (Rle_dec r 0) as [Hneg | Hpos].
  - assert (sin r <= 0).
    { destruct Hneg as [Hlt | ->]; [| rewrite sin_0; lra].
      left. apply sin_lt_0_var; lra. }
    destruct (Rle_dec 0 (- sin r)); [reflexivity | lra].
  - assert (0 < sin r) by (apply sin_gt_0; lra).
    destruct (Rle_dec 0 (- sin r)); [lra | reflexivity].
Qed.

(** The angle of the point (cos t, sin t) for [t] in [0, 2 pi). *)
Lemma arctan2_sin_cos (t : R) :
  0 <= t < 2 * PI ->
  Np.arctan2 (sin t) (cos t) = if Rle_dec t PI then t else t - 2 * PI.
Proof.
  intros [H0 H2]. pose proof PI_RGT_0 as Hpi.
  destruct (Rlt_dec t (PI / 2)) as [Ha | Ha].
  { rewrite arctan2_core by lra. destruct (Rle_dec t PI); [reflexivity | lra]. }
  destruct (Req_dec_T t (PI / 2)) as [-> | Hb].
  { rewrite sin_PI2, cos_PI2. unfold Np.arctan2.
    destruct (Rlt_dec 0 0); [lra |]. destruct (Rlt_dec 0 1); [| lra].
    destruct (Rle_dec (PI / 2) PI); [reflexivity | lra]. }
  destruct (Rlt_dec t (3 * (PI / 2))) as [Hc | Hc].
  { replace (sin t) with (- sin (t - PI))
      by (rewrite <- neg_sin; f_equal; ring).
    replace (cos t) with (- cos (t - PI))
      by (rewrite <- neg_cos; f_equal; ring).
    rewrite arctan2_shifted by lra.
    destruct (Rle_dec (t - PI) 0), (Rle_dec t PI); try lra. }
  destruct (Req_dec_T t (3 * (PI / 2))) as [-> | Hd].
  { rewrite cos_3PI2.
    replace (sin (3 * (PI / 2))) with (- 1).
    2:{ replace (3 * (PI / 2)) with (PI / 2 + PI) by field.
        now rewrite neg_sin, sin_PI2. }
    unfold Np.arctan2.
    destruct (Rlt_dec 0 0); [lra |]. destruct (Rlt_dec 0 (-1)); [lra |].
    destruct (Rlt_dec (-1) 0); [| lra].
    destruct (Rle_dec (3 * (PI / 2)) PI); lra. }
  replace (sin t) with (sin (t - 2 * PI)).
  2:{ rewrite <- (sin_period (t - 2 * PI) 1). f_equal. simpl INR. ring. }
  replace (cos t) with (cos (t - 2 * PI)).
  2:{ rewrite <- (cos_period (t - 2 * PI) 1). f_equal. simpl INR. ring. }
  rewrite arctan2_core by lra. destruct (Rle_dec t PI); [lra | reflexivity].
Qed.

Lemma sum_repeat (c : R) (n : nat) : fold_right Rplus 0 (repeat c n) = INR n * c.
Proof.
  induction n as [| n IH]; [simpl; ring |].
  change (repeat c (S n)) with (c :: repeat c n). simpl fold_right.
  rewrite IH, S_INR. ring.
Qed.

Lemma mean_repeat (c : R) (n : nat) : Compass.mean (repeat c (S n)) = c.
Proof.
  unfold Compass.mean. rewrite sum_repeat, repeat_length.
  field. apply not_0_INR. discriminate.
Qed.

Lemma constant_is_repeat (d : R) (l : list R) :
  Forall (eq d) l -> l = repeat d (List.length l).
Proof.
  induction 1 as [| x l Hx _ IH]; [reflexivity |].
  simpl. now rewrite <- Hx, <- IH.
Qed.

Lemma py_fmod_small (d : R) : 0 <= d < 360 -> py_fmod d 360 = d.
Proof.
  intros Hd. unfold py_fmod.
  rewrite (Zfloor_eq 0) by (assert (E : d = 360 * (d / 360)) by field; simpl; lra).
  simpl. ring.
Qed.

(** The average of a window of equal directions. *)
Lemma window_average_repeat (d : R) (n : nat) :
  0 <= d < 360 -> Compass.window_average (repeat d (S n)) = d.
Proof.
  intros Hd. pose proof PI_RGT_0 as Hpi. unfold Compass.window_average. cbv zeta.
  rewrite !map_repeat, !mean_repeat.
  rewrite arctan2_sin_cos by (unfold Np.radians; split; nra).
  destruct (Rle_dec (Np.radians d) PI).
  - replace (degrees (Np.radians d)) with d
      by (unfold degrees, Np.radians; field; lra).
    replace (d + 360) with (d + 360 * IZR 1) by (simpl; ring).
    rewrite py_fmod_add_turns. now apply py_fmod_small.
  - replace (degrees (Np.radians d - 2 * PI) + 360) with d
      by (unfold degrees, Np.radians; field; lra).
    now apply py_fmod_small.
Qed.

Lemma forall_firstn {A : Type} (P : A -> Prop) (l : list A) :
  Forall P l -> forall n, Forall P (firstn n l).
Proof.
  induction 1 as [| x l Hx _ IH]; intros [| n]; simpl; constructor; auto.
Qed.

Lemma forall_skipn {A : Type} (P : A -> Prop) (l : list A) :
  Forall P l -> forall n, Forall P (skipn n l).
Proof.
  induction 1 as [| x l Hx Hl IH]; intros [| n]; simpl; auto.
Qed.

(** X29. Averaging equal readings gives the reading back: when every
    direction is the same [d] in [0, 360), every average
    [calculate_compass_average] returns is [d], for any window size. *)
Theorem compass_average_of_constant (d : R) (directions : list R)
    (sample_rate target_rate : R) (out : list R) :
  0 <= d < 360 ->
  Forall (eq d) directions ->
  Compass.calculate_compass_average directions sample_rate target_rate = Return out ->
  Forall (eq d) out.
Proof.
  intros Hd Hall H. unfold Compass.calculate_compass_average in H.
  destruct (Np.eqb target_rate 0); [discriminate |]. cbv zeta in H.
  set (ws := Compass.py_int (sample_rate / target_rate)) in *.
  destruct (Z.eqb_spec ws 0) as [| Hnz]; [discriminate |].
  destruct (Z.ltb_spec ws 0) as [Hneg | Hpos]; [injection H as <-; constructor |].
  injection H as <-. apply Forall_forall. intros v Hv.
  apply in_map_iff in Hv. destruct Hv as (i & <- & Hi).
  apply range_step_in in Hi.
  set (n := List.length directions) in *. set (w := Z.to_nat ws) in *.
  assert (Hw : (0 < w)%nat) by (unfold w; lia).
  set (window := Compass.slice directions i (Nat.min (i + w) n)).
  assert (Hwin : Forall (eq d) window)
    by (unfold window, Compass.slice; apply forall_firstn, forall_skipn, Hall).
  assert (Hlen : (0 < List.length window)%nat).
  { unfold window, Compass.slice. rewrite length_firstn, length_skipn. fold n. lia. }
  rewrite (constant_is_repeat d window Hwin).
  destruct (List.length window) as [| k]; [lia |].
  symmetry. now apply window_average_repeat.
Qed.

Lemma py_int_two : Compass.py_int (1 / 0.5) = 2%Z.
Proof.
  replace (1 / 0.5) with (IZR 2) by (simpl; lra).
  unfold Compass.py_int. destruct (Rle_dec 0 (IZR 2)) as [_ | H]; [apply ZfloorZ |].
  exfalso. apply H. simpl. lra.
Qed.

Lemma three_readings_average :
  Compass.calculate_compass_average [350; 350; 350] 1 0.5
  = Return [Compass.window_average [350; 350]; Compass.window_average [350]].
Proof.
  unfold Compass.calculate_compass_average.
  rewrite eqb_neq by lra. cbv zeta. rewrite py_int_two. reflexivity.
Qed.

(** Witness of X29: three readings of 350 degrees, windows of two. *)
Lemma compass_average_of_constant_witness :
  Forall (eq 350) [Compass.window_average [350; 350]; Compass.window_average [350]].
Proof.
  apply (compass_average_of_constant 350 [350; 350; 350] 1 0.5).
  - lra.
  - repeat constructor.
  - exact three_readings_average.
Defined.
